(** * Uplink client data path: a shallow embedding and its properties

    The development follows the Go sources of the repository:

    - [Uplink]      the uplink configuration (Config.GetMetainfo,
                     keyFilepath.Key, GetRedundancyScheme, GetEncryptionScheme);
    - [Setup]       cmd/uplink/cmd/setup.go (SaveEncryptionKey, the passphrase
                     part of cmdSetup);
    - [Kvmetainfo]  pkg/metainfo/kvmetainfo/buckets.go (bucket operations of
                     Project);
    - [LibUplink]   lib/uplink/main.go (the Session placeholders).

    Around them: [GoInt] and [Go] (machine integers and the control flow of a
    function body), [OS] (the file tree and the trace of what the process
    did), [Storj] (the types of the storj package the code uses), and the
    erasure coder, which is not part of the available sources and is
    modelled from the specification: [EEStream] (its constructors), [GF256]
    and [Poly] (the algebra), [Erasure] (Encode and Decode).

    Go integers are mathematical integers with their wrap-around written out,
    the file system is a finite map from paths to nodes, and effectful code
    passes a [World] explicitly.  Part I holds the definitions, Part II the
    properties. *)

From Stdlib Require Import ZArith NArith List String Ascii Bool Lia Ring Field.
From Stdlib Require Import Strings.Byte.
From stdpp Require Import base gmap strings list.
Import ListNotations.
Open Scope Z_scope.

(* ================================================================== *)
(** * Part I: definitions                                              *)
(* ================================================================== *)

(** ** Go machine integers *)

Module GoInt.

(** Two's complement value of [x] seen as a signed [w]-bit integer. *)
Definition wrap (w : Z) (x : Z) : Z :=
  (x + 2 ^ (w - 1)) mod 2 ^ w - 2 ^ (w - 1).

Definition int16 : Z -> Z := wrap 16.
Definition int32 : Z -> Z := wrap 32.
Definition int64 : Z -> Z := wrap 64.

(** Go's [int]; 64 bits wide on the platforms the uplink is built for. *)
Definition int : Z -> Z := int64.

Definition in_int16 (x : Z) : Prop := -32768 <= x <= 32767.
Definition in_int32 (x : Z) : Prop := -2147483648 <= x <= 2147483647.
Definition in_int (x : Z) : Prop := - 2 ^ 63 <= x < 2 ^ 63.

(** [a * b] on [int]: the product wraps. *)
Definition mul (a b : Z) : Z := int (a * b).

(** [a % b] on [int] for [b <> 0]: truncated, the sign follows the dividend.
    A zero divisor is a run-time panic and is handled by the caller. *)
Definition rem (a b : Z) : Z := Z.rem a b.

End GoInt.

(** ** Control flow of a Go function body

    A statement either falls through with a value, returns from the enclosing
    function, or panics.  [exec St R A] is a statement over the state [St], in
    a function whose result type is [R], producing an [A] when it falls
    through. *)

Module Go.

Inductive step (R A : Type) : Type :=
| Next (a : A)
| Return (r : R)
| Panicked (msg : string).
Arguments Next {R A} a.
Arguments Return {R A} r.
Arguments Panicked {R A} msg.

Definition exec (St R A : Type) : Type := St -> step R A * St.

Definition ret {St R A} (a : A) : exec St R A := fun s => (Next a, s).
Definition return_ {St R A} (r : R) : exec St R A := fun s => (Return r, s).
Definition panic {St R A} (msg : string) : exec St R A := fun s => (Panicked msg, s).

Definition bind {St R A B} (m : exec St R A) (k : A -> exec St R B) : exec St R B :=
  fun s =>
    match m s with
    | (Next a, s') => k a s'
    | (Return r, s') => (Return r, s')
    | (Panicked msg, s') => (Panicked msg, s')
    end.

(** [v, err := f(); if err != nil { return onerr(err) }] *)
Definition try {St R E A} (m : exec St R (E + A)) (onerr : E -> R) : exec St R A :=
  bind m (fun x => match x with
                   | inl e => return_ (onerr e)
                   | inr a => ret a
                   end).

(** [if cond { return r }] *)
Definition return_if {St R} (cond : bool) (r : R) : exec St R unit :=
  if cond then return_ r else ret tt.

(** A pure call lifted to a statement. *)
Definition pure {St R A} (a : A) : exec St R A := ret a.

(** A call that passes the state and cannot panic. *)
Definition lift {St R A} (f : St -> A * St) : exec St R A :=
  fun s => let (a, s') := f s in (Next a, s').

(** What a call of the function yields. *)
Inductive outcome (R : Type) : Type :=
| Returned (r : R)
| Panics (msg : string).
Arguments Returned {R} r.
Arguments Panics {R} msg.

Definition call {St R} (body : exec St R R) (s : St) : outcome R * St :=
  match body s with
  | (Next r, s') => (Returned r, s')
  | (Return r, s') => (Returned r, s')
  | (Panicked msg, s') => (Panics msg, s')
  end.

(** A call of a function that may panic, inside another body. *)
Definition invoke {St R A} (f : St -> outcome A * St) : exec St R A :=
  fun s => match f s with
           | (Returned a, s') => (Next a, s')
           | (Panics msg, s') => (Panicked msg, s')
           end.

End Go.

Declare Scope go_scope.
Delimit Scope go_scope with go.
Notation "'do' x <- m ; k" := (Go.bind m (fun x => k))
  (at level 10, x name, m at level 100, k at level 200) : go_scope.
Notation "'run' m ; k" := (Go.bind m (fun _ => k))
  (at level 10, m at level 100, k at level 200) : go_scope.

(** ** The operating system: files and the network seen by the process *)

Module OS.

Inductive Errno : Set :=
| ENOENT | EEXIST | ENOTDIR | EISDIR | EACCES | EIO | ENOSPC.

Definition Errno_eqb (a b : Errno) : bool :=
  match a, b with
  | ENOENT, ENOENT | EEXIST, EEXIST | ENOTDIR, ENOTDIR | EISDIR, EISDIR
  | EACCES, EACCES | EIO, EIO | ENOSPC, ENOSPC => true
  | _, _ => false
  end.

(** [os.IsNotExist] and [os.IsExist] on the errors of this model. *)
Definition IsNotExist (e : Errno) : bool := Errno_eqb e ENOENT.
Definition IsExist (e : Errno) : bool := Errno_eqb e EEXIST.

(** A node of the file tree.  [mode] is the [os.FileMode]; its low nine bits
    are the permission bits. *)
Inductive Node : Type :=
| File (mode : Z) (data : list byte)
| Dir (mode : Z).

Definition node_mode (n : Node) : Z :=
  match n with File m _ => m | Dir m => m end.

(** [FileMode.Perm]: the mode masked with [ModePerm = 0777]. *)
Definition Perm (mode : Z) : Z := Z.land mode 511.

(** The system calls whose failure does not follow from the file tree alone
    (a full disk, a failing device); the world says which of them fail. *)
Inductive Syscall : Set :=
| SysStat | SysRead | SysWrite | SysChmod | SysClose | SysPrint.

(** What the process did to the outside, in order. *)
Inductive Event : Type :=
| EvDial (address apiKey : string)       (* a connection to a remote service *)
| EvOpenFile (path : string) (flag : Z)  (* an open(2) *)
| EvPrint (line : string).               (* a line on standard output *)

Definition is_network (e : Event) : bool :=
  match e with EvDial _ _ => true | _ => false end.

Record World : Type := mkWorld {
  fs : gmap string Node;
  fault : Syscall -> option Errno;
  trace : list Event
}.

Definition set_fs (f : gmap string Node) (w : World) : World :=
  {| fs := f; fault := fault w; trace := trace w |}.

Definition log (e : Event) (w : World) : World :=
  {| fs := fs w; fault := fault w; trace := trace w ++ [e] |}.

(** The directory part of a path: what precedes its last separator. *)
Fixpoint dirname_aux (s : string) : option string :=
  match s with
  | EmptyString => None
  | String c r =>
      match dirname_aux r with
      | Some d => Some (String c d)
      | None => if Ascii.eqb c "/" then Some EmptyString else None
      end
  end.

Definition dirname (s : string) : string :=
  match dirname_aux s with
  | Some EmptyString => "/"
  | Some d => d
  | None => "."
  end.

(** Flags of [os.OpenFile] (their Linux values). *)
Definition O_RDONLY : Z := 0.
Definition O_WRONLY : Z := 1.
Definition O_CREATE : Z := 64.
Definition O_EXCL : Z := 128.

Definition has_flag (flag bit : Z) : bool := negb (Z.land flag bit =? 0).

(** An open file: the path it was opened at (nothing in the modelled code
    renames or unlinks). *)
Abbreviation Handle := string (only parsing).

(** [os.OpenFile(name, flag, perm)].  An existing entry is opened, unless
    [O_CREATE|O_EXCL] asks for a new one ([EEXIST]); a missing entry is
    created under [O_CREATE] when its parent is a directory, and is
    [ENOENT] otherwise; a regular file in the place of the parent directory
    is [ENOTDIR].  Access checks by the kernel are not modelled: the process
    is taken to own the tree, and the permission argument is stored as
    given. *)
Definition os_OpenFile (name : string) (flag perm : Z) (w : World)
  : (Errno + Handle) * World :=
  let w1 := log (EvOpenFile name flag) w in
  match fs w !! name with
  | Some _ =>
      if has_flag flag O_CREATE && has_flag flag O_EXCL
      then (inl EEXIST, w1)
      else (inr name, w1)
  | None =>
      match fs w !! dirname name with
      | Some (Dir _) =>
          if has_flag flag O_CREATE
          then (inr name, set_fs (<[name := File perm []]> (fs w)) w1)
          else (inl ENOENT, w1)
      | Some (File _ _) => (inl ENOTDIR, w1)
      | None => (inl ENOENT, w1)
      end
  end.

(** [os.Open(name)] is [OpenFile(name, O_RDONLY, 0)]. *)
Definition os_Open (name : string) (w : World) : (Errno + Handle) * World :=
  os_OpenFile name O_RDONLY 0 w.

(** [f.Stat()]: the mode of the node behind the handle. *)
Definition file_Stat (f : Handle) (w : World) : (Errno + Z) * World :=
  match fault w SysStat with
  | Some e => (inl e, w)
  | None =>
      match fs w !! f with
      | Some n => (inr (node_mode n), w)
      | None => (inl ENOENT, w)
      end
  end.

(** The error of a read: the end of the file ([io.EOF]) or a failure. *)
Inductive ReadErr : Set := EOF | ReadFailed (e : Errno).

(** [f.Read(buf)] with [len(buf) = n] on a freshly opened file: the first
    [n] bytes of a regular file, [io.EOF] when there is none; a directory
    cannot be read. *)
Definition file_Read (f : Handle) (n : nat) (w : World)
  : (list byte * option ReadErr) * World :=
  match fault w SysRead with
  | Some e => (([], Some (ReadFailed e)), w)
  | None =>
      match fs w !! f with
      | Some (File _ data) =>
          match firstn n data with
          | [] => (([], if Nat.eqb n 0 then None else Some EOF), w)
          | bs => ((bs, None), w)
          end
      | Some (Dir _) => (([], Some (ReadFailed EISDIR)), w)
      | None => (([], Some (ReadFailed ENOENT)), w)
      end
  end.

(** [f.Write(b)] on a file opened write-only: the bytes are appended at the
    file offset, which for the new files of this model is the end. *)
Definition file_Write (f : Handle) (b : list byte) (w : World)
  : option Errno * World :=
  match fault w SysWrite with
  | Some e => (Some e, w)
  | None =>
      match fs w !! f with
      | Some (File m data) => (None, set_fs (<[f := File m (data ++ b)]> (fs w)) w)
      | Some (Dir _) => (Some EISDIR, w)
      | None => (Some ENOENT, w)
      end
  end.

(** [f.Chmod(mode)]. *)
Definition file_Chmod (f : Handle) (mode : Z) (w : World)
  : option Errno * World :=
  match fault w SysChmod with
  | Some e => (Some e, w)
  | None =>
      match fs w !! f with
      | Some (File _ data) => (None, set_fs (<[f := File mode data]> (fs w)) w)
      | Some (Dir _) => (None, set_fs (<[f := Dir mode]> (fs w)) w)
      | None => (Some ENOENT, w)
      end
  end.

(** [f.Close()]. *)
Definition file_Close (f : Handle) (w : World) : option Errno * World :=
  match fault w SysClose with
  | Some e => (Some e, w)
  | None => (None, w)
  end.

(** [fmt.Println(line)] *)
Definition fmt_Println (line : string) (w : World) : option Errno * World :=
  match fault w SysPrint with
  | Some e => (Some e, w)
  | None => (None, log (EvPrint line) w)
  end.

End OS.

(** ** Construction of the erasure coder

    [infectious.NewFEC], [eestream.NewRSScheme] and
    [eestream.NewRedundancyStrategy] are called by [Config.GetMetainfo] but
    are not among the available sources. *)

Module EEStream.

(** An error reported by a collaborator, by its message. *)
Definition ExtError : Type := string.

Record FEC : Type := mkFEC { fec_k : Z; fec_n : Z }.

Record RSScheme : Type := mkRSScheme { rs_fc : FEC; erasureShareSize : Z }.

Record RedundancyStrategy : Type := mkRedundancyStrategy {
  scheme : RSScheme;
  repairThreshold : Z;
  optimalThreshold : Z
}.

Definition RequiredCount (rs : RedundancyStrategy) : Z := fec_k (rs_fc (scheme rs)).
Definition TotalCount (rs : RedundancyStrategy) : Z := fec_n (rs_fc (scheme rs)).
Definition ErasureShareSize (rs : RedundancyStrategy) : Z := erasureShareSize (scheme rs).

(** The practical ceiling on the number of shares. *)
Definition shareCeiling : Z := 256.

(** Modelled from the spec: [infectious.NewFEC] is missing from the sources.
    The specification has construction validate [0 < k <= m <= o <= n] with
    [n] at most the share ceiling; the coder is given [k] and [n] only, so
    it validates [0 < k <= n <= 256]. *)
Definition NewFEC (k n : Z) : ExtError + FEC :=
  if (0 <? k) && (k <=? n) && (n <=? shareCeiling)
  then inr (mkFEC k n)
  else inl "requires 0 < k <= n <= 256"%string.

(** Modelled from the spec: [eestream.NewRSScheme] is missing from the
    sources; in [Config.GetMetainfo] it has a single result and cannot
    fail. *)
Definition NewRSScheme (fc : FEC) (erasureShareSize : Z) : RSScheme :=
  mkRSScheme fc erasureShareSize.

(** Modelled from the spec: [eestream.NewRedundancyStrategy] is missing
    from the sources.  The specification has construction validate
    [0 < k <= m <= o <= n] and [ErasureShareSize > 0]; what is left for this
    constructor, given a coder for [k] and [n], is [k <= m <= o <= n] and the
    share size. *)
Definition NewRedundancyStrategy (es : RSScheme) (repair optimal : Z)
  : ExtError + RedundancyStrategy :=
  if (0 <? erasureShareSize es)
     && (fec_k (rs_fc es) <=? repair) && (repair <=? optimal)
     && (optimal <=? fec_n (rs_fc es))
  then inr (mkRedundancyStrategy es repair optimal)
  else inl "invalid redundancy thresholds or share size"%string.

End EEStream.

(** ** Types of the storj package used by the modelled code

    Their declarations are outside the available sources; the fields are the
    ones the code reads and writes. *)

Module Storj.

(** Modelled from the spec: [storj.Key], the fixed-length root key, is a
    byte array whose length is declared outside the available sources; it
    is taken to be 32.  No statement below depends on the value. *)
Definition KeySize : nat := 32.
Definition Key : Type := list byte.
Definition zeroKey : Key := repeat x00 KeySize.

(** [storj.Cipher] values are represented by integers (the configuration
    documents 0 = unencrypted, 1 = AES-GCM, 2 = SecretBox). *)
Definition Cipher : Type := Z.
Definition AESGCM : Cipher := 1.

Record RedundancyScheme : Type := mkRedundancyScheme {
  Algorithm : Z;
  RequiredShares : Z;
  RepairShares : Z;
  OptimalShares : Z;
  TotalShares : Z
}.

(** [storj.ReedSolomon], the only algorithm the configuration produces; the
    constant is declared outside the available sources and stands for
    itself here (the zero value of the field is 0). *)
Definition ReedSolomon : Z := 1.

Record EncryptionScheme : Type := mkEncryptionScheme {
  SchemeCipher : Cipher;
  SchemeBlockSize : Z
}.

End Storj.

(** ** The uplink configuration (package uplink) *)

Module Uplink.
Import GoInt OS EEStream Storj.
Local Open Scope go_scope.

(** [memory.Size] is an [int64]; its conversions. *)
Definition Size_Int (s : Z) : Z := GoInt.int s.
Definition Size_Int32 (s : Z) : Z := GoInt.int32 s.
Definition Size_Int64 (s : Z) : Z := GoInt.int64 s.

Record RSConfig : Type := mkRSConfig {
  MaxBufferMem : Z;
  ErasureShareSize : Z;
  MinThreshold : Z;
  RepairThreshold : Z;
  SuccessThreshold : Z;
  MaxThreshold : Z
}.

Record EncryptionConfig : Type := mkEncryptionConfig {
  EncKey : string;
  KeyFilepath : string;
  BlockSize : Z;
  DataType : Z;
  PathType : Z
}.

Record ClientConfig : Type := mkClientConfig {
  APIKey : string;
  SatelliteAddr : string;
  MaxInlineSize : Z;
  SegmentSize : Z
}.

(** [tlsopts.Config], [identity.FullIdentity] and the values built from
    them are opaque to this package. *)
Definition TLSConfig : Type := string.
Definition Identity : Type := string.
Definition TLSOptions : Type := string.

Record Config : Type := mkConfig {
  Client : ClientConfig;
  RS : RSConfig;
  Enc : EncryptionConfig;
  TLS : TLSConfig
}.

(** The array after [f.Read(key[:])] delivered [bs]: the bytes read, then
    the zero bytes the array started with. *)
Definition key_of_read (bs : list byte) : Key :=
  firstn KeySize bs ++ repeat x00 (KeySize - List.length bs).

(** The messages of the package's error class
    [Error = errs.Class("Uplink configuration error")]. *)
Inductive ConfigMsg : Type :=
| FailedConnect (e : ExtError)      (* "failed to connect to metainfo service: %v" *)
| FailedFEC (e : ExtError)          (* "failed to create erasure coding client: %v" *)
| FailedRS (e : ExtError)           (* "failed to create redundancy strategy: %v" *)
| FailedCalcSize (e : ExtError)     (* "failed to calculate max encrypted segment size: %v" *)
| BlockSizeMultiple                 (* "EncryptionBlockSize must be a multiple of ErasureShareSize * RS MinThreshold" *)
| KeyNotFound (kfp : string)        (* "not found key file %q" *)
| KeyTooOpen (p : Z) (kfp : string) (* "permissions '%#o' for key file %q are too open" *)
| FailedStreamStore (e : ExtError). (* "failed to create stream store: %v" *)

Inductive Error : Type :=
| ErrForeign (e : ExtError)   (* an error of another package, returned as it is *)
| ErrNoSatelliteAddr          (* errors.New("satellite address not specified") *)
| ErrConfig (m : ConfigMsg)   (* Error.New(...) and Error.Wrap(...) *)
| ErrWrapped (e : Errno).     (* errs.Wrap(err) of an operating system error *)

(** Membership in the class "Uplink configuration error". *)
Definition is_config_class (e : Error) : bool :=
  match e with ErrConfig _ => true | _ => false end.

(** The configuration violations: the thresholds rejected by the erasure
    constructors and the share/block-size mismatch. *)
Definition is_config_violation (e : Error) : bool :=
  match e with
  | ErrConfig (FailedFEC _) | ErrConfig (FailedRS _) | ErrConfig BlockSizeMultiple => true
  | _ => false
  end.


(** [keyFilepath.Key] *)
Definition keyFilepath_Key (kfp : string) : World -> Go.outcome (Key * option Error) * World :=
  Go.call (
    do f <- Go.try (Go.lift (os_Open kfp))
              (fun err => if IsNotExist err
                          then (zeroKey, Some (ErrConfig (KeyNotFound kfp)))
                          else (zeroKey, Some (ErrWrapped err)));
    do fi <- Go.try (Go.lift (file_Stat f))
               (fun err => (zeroKey, Some (ErrWrapped err)));
    let p := Perm fi in
    run Go.return_if (negb (p =? 256))   (* os.FileMode(0400) *)
          (zeroKey, Some (ErrConfig (KeyTooOpen p kfp)));
    do rd <- Go.lift (file_Read f KeySize);
    match snd rd with
    | Some (ReadFailed err) => Go.return_ (zeroKey, Some (ErrWrapped err))
    | Some EOF | None => Go.return_ (key_of_read (fst rd), None)
    end).

(** The collaborators of [GetMetainfo] that are outside the available
    sources: what each call answers. *)
Record Env : Type := mkEnv {
  tlsopts_NewOptions : Identity -> TLSConfig -> ExtError + TLSOptions;
  (** whether the dial of [metainfo.NewClient] succeeds *)
  metainfo_dial : string -> string -> option ExtError;
  encryption_CalcEncryptedSize : Z -> EncryptionScheme -> ExtError + Z;
  (** whether [streams.NewStreamStore] accepts its arguments *)
  streams_check : Z -> Z -> Cipher -> option ExtError;
  (** the conversion [storj.Cipher(x)] of an [int] *)
  storj_Cipher : Z -> Cipher
}.

(** The values the constructors build, as records of their arguments. *)
Record TransportClient : Type := mkTransportClient { tc_tlsOpts : TLSOptions }.
Record MetainfoClient : Type := mkMetainfoClient {
  mc_tc : TransportClient; mc_address : string; mc_apiKey : string }.
Record ECClient : Type := mkECClient { ec_tc : TransportClient; ec_memoryLimit : Z }.
Record SegmentStore : Type := mkSegmentStore {
  seg_metainfo : MetainfoClient;
  seg_ec : ECClient;
  seg_rs : RedundancyStrategy;
  seg_maxInlineSize : Z;
  seg_maxEncryptedSegmentSize : Z
}.
Record StreamStore : Type := mkStreamStore {
  str_segments : SegmentStore;
  str_segmentSize : Z;
  str_key : Key;
  str_encBlockSize : Z;
  str_cipher : Cipher
}.
Record BucketStore : Type := mkBucketStore { bs_streams : StreamStore }.
Record DB : Type := mkDB {
  db_metainfo : MetainfoClient;
  db_buckets : BucketStore;
  db_streams : StreamStore;
  db_segments : SegmentStore;
  db_key : Key;
  db_encBlockSize : Z;
  db_rs : RedundancyStrategy;
  db_segmentSize : Z
}.

Definition transport_NewClient (tlsOpts : TLSOptions) : TransportClient :=
  mkTransportClient tlsOpts.

(** [metainfo.NewClient]: dials the satellite. *)
Definition metainfo_NewClient (env : Env) (tc : TransportClient) (address apiKey : string)
  (w : World) : (ExtError + MetainfoClient) * World :=
  let w1 := log (EvDial address apiKey) w in
  match metainfo_dial env address apiKey with
  | Some e => (inl e, w1)
  | None => (inr (mkMetainfoClient tc address apiKey), w1)
  end.

Definition streams_NewStreamStore (env : Env) (segments : SegmentStore) (segmentSize : Z)
  (key : Key) (encBlockSize : Z) (cipher : Cipher) : ExtError + StreamStore :=
  match streams_check env segmentSize encBlockSize cipher with
  | Some e => inl e
  | None => inr (mkStreamStore segments segmentSize key encBlockSize cipher)
  end.

(** [Config.GetEncryptionScheme] *)
Definition GetEncryptionScheme (env : Env) (c : Config) : EncryptionScheme :=
  {| SchemeCipher := storj_Cipher env (DataType (Enc c));
     SchemeBlockSize := GoInt.int32 (BlockSize (Enc c)) |}.

(** [Config.GetRedundancyScheme] *)
Definition GetRedundancyScheme (c : Config) : RedundancyScheme :=
  {| Algorithm := ReedSolomon;
     RequiredShares := GoInt.int16 (MinThreshold (RS c));
     RepairShares := GoInt.int16 (RepairThreshold (RS c));
     OptimalShares := GoInt.int16 (SuccessThreshold (RS c));
     TotalShares := GoInt.int16 (MaxThreshold (RS c)) |}.

(** The three results of [GetMetainfo]: [(db, ss, err)]. *)
Definition Result3 : Type := (option DB * option StreamStore * option Error)%type.
Definition fail3 (e : Error) : Result3 := (None, None, Some e).

(** [Config.GetMetainfo].  The deferred [mon.Task] only records metrics and
    is left out, and so is the assignment [c.Enc.Key = string(key[:])]: the
    receiver is a copy, and the field is not read afterwards. *)
Definition GetMetainfo (env : Env) (c : Config) (identity : Identity)
  : World -> Go.outcome Result3 * World :=
  Go.call (
    do tlsOpts <- Go.try (Go.pure (tlsopts_NewOptions env identity (TLS c)))
                    (fun err => fail3 (ErrForeign err));
    let tc := transport_NewClient tlsOpts in
    run Go.return_if (String.eqb (SatelliteAddr (Client c)) "")
          (fail3 ErrNoSatelliteAddr);
    do metainfo <- Go.try (Go.lift (metainfo_NewClient env tc (SatelliteAddr (Client c))
                                       (APIKey (Client c))))
                     (fun err => fail3 (ErrConfig (FailedConnect err)));
    let ec := mkECClient tc (Size_Int (MaxBufferMem (RS c))) in
    do fc <- Go.try (Go.pure (NewFEC (MinThreshold (RS c)) (MaxThreshold (RS c))))
               (fun err => fail3 (ErrConfig (FailedFEC err)));
    do rs <- Go.try (Go.pure (NewRedundancyStrategy
                                (NewRSScheme fc (Size_Int (ErasureShareSize (RS c))))
                                (RepairThreshold (RS c)) (SuccessThreshold (RS c))))
               (fun err => fail3 (ErrConfig (FailedRS err)));
    do maxEncryptedSegmentSize <-
         Go.try (Go.pure (encryption_CalcEncryptedSize env
                            (Size_Int64 (SegmentSize (Client c))) (GetEncryptionScheme env c)))
           (fun err => fail3 (ErrConfig (FailedCalcSize err)));
    let segments := mkSegmentStore metainfo ec rs (Size_Int (MaxInlineSize (Client c)))
                      maxEncryptedSegmentSize in
    run (if Size_Int (BlockSize (Enc c)) =? 0
         then Go.panic "runtime error: integer divide by zero"
         else Go.ret tt);
    run Go.return_if
          (negb (GoInt.rem (GoInt.mul (Size_Int (ErasureShareSize (RS c))) (MinThreshold (RS c)))
                           (Size_Int (BlockSize (Enc c))) =? 0))
          (fail3 (ErrConfig BlockSizeMultiple));
    do kr <- Go.invoke (keyFilepath_Key (KeyFilepath (Enc c)));
    run (match snd kr with
         | Some err => Go.return_ (fail3 err)
         | None => Go.ret tt
         end);
    let key := fst kr in
    do streams <- Go.try (Go.pure (streams_NewStreamStore env segments
                                     (Size_Int64 (SegmentSize (Client c))) key
                                     (Size_Int (BlockSize (Enc c)))
                                     (storj_Cipher env (DataType (Enc c)))))
                    (fun err => fail3 (ErrConfig (FailedStreamStore err)));
    let buckets := mkBucketStore streams in
    Go.return_ (Some (mkDB metainfo buckets streams segments key
                        (Size_Int32 (BlockSize (Enc c))) rs
                        (Size_Int64 (SegmentSize (Client c)))),
                Some streams, None)).

(** *** Vocabulary for the statements about [GetMetainfo] *)

Definition is_ok {E A : Type} (x : E + A) : bool :=
  match x with inl _ => false | inr _ => true end.


(** The steps of [GetMetainfo] before the erasure constructors succeed: TLS
    options, a satellite address, the connection to the metainfo service. *)
Definition reaches_erasure_construction (env : Env) (c : Config) (identity : Identity) : bool :=
  is_ok (tlsopts_NewOptions env identity (TLS c))
  && negb (String.eqb (SatelliteAddr (Client c)) "")
  && match metainfo_dial env (SatelliteAddr (Client c)) (APIKey (Client c)) with
     | Some _ => false
     | None => true
     end.

(** The steps before the share/block-size check succeed: the above, the two
    erasure constructors and the size calculation. *)
Definition reaches_block_size_check (env : Env) (c : Config) (identity : Identity) : bool :=
  reaches_erasure_construction env c identity
  && match NewFEC (MinThreshold (RS c)) (MaxThreshold (RS c)) with
     | inl _ => false
     | inr fc => is_ok (NewRedundancyStrategy
                          (NewRSScheme fc (Size_Int (ErasureShareSize (RS c))))
                          (RepairThreshold (RS c)) (SuccessThreshold (RS c)))
     end
  && is_ok (encryption_CalcEncryptedSize env (Size_Int64 (SegmentSize (Client c)))
              (GetEncryptionScheme env c)).

End Uplink.

(** ** The setup command (cmd/uplink/cmd/setup.go) *)

Module Setup.
Import OS.
Local Open Scope go_scope.

Inductive Error : Type :=
| ErrDirMissing          (* errors.New("directory path doesn't exist") *)
| ErrFileKeyExists       (* errors.New("file key already exists") *)
| ErrPassphraseMismatch  (* errs.New("encryption passphrases doesn't match") *)
| ErrOs (e : Errno).     (* an operating system error, returned as it is *)

(** [os.O_CREATE|os.O_EXCL|os.O_WRONLY] *)
Definition save_flags : Z := Z.lor (Z.lor O_CREATE O_EXCL) O_WRONLY.

(** [SaveEncryptionKey].  The deferred function closes the file on every
    path after the open, and its error is the result only when the body
    had none. *)
Definition SaveEncryptionKey (key : list byte) (filepath : string)
  : World -> Go.outcome (option Error) * World :=
  Go.call (
    do f <- Go.try (Go.lift (os_OpenFile filepath save_flags 384 (* 0600 *)))
              (fun err => if IsNotExist err then Some ErrDirMissing
                          else if IsExist err then Some ErrFileKeyExists
                          else Some (ErrOs err));
    do err <- (do werr <- Go.lift (file_Write f key);
               match werr with
               | Some e => Go.ret (Some e)
               | None => Go.lift (file_Chmod f 256 (* 0400 *))
               end);
    do cerr <- Go.lift (file_Close f);
    match err with
    | None => Go.return_ (option_map ErrOs cerr)
    | Some e => Go.return_ (Some (ErrOs e))
    end).

(** [bytes.Equal] *)
Fixpoint bytes_Equal (a b : list byte) : bool :=
  match a, b with
  | [], [] => true
  | x :: a', y :: b' => Byte.eqb x y && bytes_Equal a' b'
  | _, _ => false
  end.

(** The part of [cmdSetup] that follows the two passphrase prompts
    (lines 143-158): the passphrases are compared, an empty one is only
    warned about, any other is saved to the key file.  [None] means the
    command goes on to write the configuration file. *)
Definition cmdSetup_passphrase (encKey repeatedEncKey : list byte) (encKeyFilepath : string)
  : World -> Go.outcome (option Error) * World :=
  Go.call (
    run Go.return_if (negb (bytes_Equal encKey repeatedEncKey))
          (Some ErrPassphraseMismatch);
    if Nat.eqb (List.length encKey) 0
    then
      do perr <- Go.lift (fmt_Println "Warning: Encryption passphrase is empty!");
      match perr with
      | Some e => Go.return_ (Some (ErrOs e))
      | None => Go.ret None
      end
    else
      do err <- Go.invoke (SaveEncryptionKey encKey encKeyFilepath);
      match err with
      | Some e => Go.return_ (Some e)
      | None => Go.ret None
      end).

End Setup.

(** ** Bucket operations of the metainfo database
       (pkg/metainfo/kvmetainfo/buckets.go) *)

Module Kvmetainfo.
Import Storj.

Section Project.

(** [storj.EncryptionParameters] and its conversions from and to
    [storj.EncryptionScheme] are declared outside the available sources. *)
Variable EncryptionParameters : Type.
Variable zeroEncryptionParameters : EncryptionParameters.
Variable ToEncryptionScheme : EncryptionParameters -> EncryptionScheme.
Variable ToEncryptionParameters : EncryptionScheme -> EncryptionParameters.

Record Bucket : Type := mkBucket {
  Name : string;
  Created : Z;
  PathCipher : Cipher;
  SegmentsSize : Z;
  BucketRedundancyScheme : RedundancyScheme;
  EncryptionParams : EncryptionParameters
}.

(** [buckets.Meta] *)
Record Meta : Type := mkMeta {
  MetaCreated : Z;
  PathEncryptionType : Cipher;
  MetaSegmentsSize : Z;
  MetaRedundancyScheme : RedundancyScheme;
  MetaEncryptionScheme : EncryptionScheme
}.

(** [storj.Bucket{}] *)
Definition zeroBucket : Bucket :=
  mkBucket "" 0 0 0 (mkRedundancyScheme 0 0 0 0 0) zeroEncryptionParameters.

Inductive Error : Type :=
| ErrNoBucket (msg : string)  (* storj.ErrNoBucket.New(msg) *)
| ErrStore (e : string).      (* an error of the bucket store *)

(** The operations of [db.buckets], the underlying bucket store, each with
    the type of its answer. *)
Inductive StoreOp : Type -> Type :=
| StorePut (bucket : string) (meta : Meta) : StoreOp (Error + Meta)
| StoreGet (bucket : string) : StoreOp (Error + Meta)
| StoreDelete (bucket : string) : StoreOp (option Error).

(** A method of [Project]: it finishes with a result, or asks the store and
    goes on with the answer. *)
Inductive Prog (R : Type) : Type :=
| Done (r : R)
| Ask {X : Type} (op : StoreOp X) (k : X -> Prog R).
Arguments Done {R} r.
Arguments Ask {R X} op k.

(** Running a method against a store with state [St]. *)
Fixpoint interp {St R : Type} (h : forall X, StoreOp X -> St -> X * St)
  (p : Prog R) (s : St) : R * St :=
  match p with
  | Done r => (r, s)
  | Ask op k => let (x, s') := h _ op s in interp h (k x) s'
  end.

(** The number of store operations of a run. *)
Fixpoint asked {St R : Type} (h : forall X, StoreOp X -> St -> X * St)
  (p : Prog R) (s : St) : nat :=
  match p with
  | Done _ => O
  | Ask op k => let (x, s') := h _ op s in S (asked h (k x) s')
  end.

(** [getPathCipher] *)
Definition getPathCipher (info : option Bucket) : Cipher :=
  match info with
  | None => AESGCM
  | Some i => PathCipher i
  end.

(** [bucketFromMeta] *)
Definition bucketFromMeta (bucketName : string) (meta : Meta) : Bucket :=
  {| Name := bucketName;
     Created := MetaCreated meta;
     PathCipher := PathEncryptionType meta;
     SegmentsSize := MetaSegmentsSize meta;
     BucketRedundancyScheme := MetaRedundancyScheme meta;
     EncryptionParams := ToEncryptionParameters (MetaEncryptionScheme meta) |}.

(** [Project.CreateBucket]; [info] is a pointer and may be nil. *)
Definition CreateBucket (bucketName : string) (info : option Bucket)
  : Prog (Bucket * option Error) :=
  if String.eqb bucketName ""
  then Done (zeroBucket, Some (ErrNoBucket ""))
  else
    let info := match info with None => zeroBucket | Some i => i end in
    Ask (StorePut bucketName
           {| MetaCreated := 0;
              PathEncryptionType := getPathCipher (Some info);
              MetaSegmentsSize := SegmentsSize info;
              MetaRedundancyScheme := BucketRedundancyScheme info;
              MetaEncryptionScheme := ToEncryptionScheme (EncryptionParams info) |})
        (fun r => match r with
                  | inl err => Done (zeroBucket, Some err)
                  | inr meta => Done (bucketFromMeta bucketName meta, None)
                  end).

(** [Project.DeleteBucket] *)
Definition DeleteBucket (bucketName : string) : Prog (option Error) :=
  if String.eqb bucketName ""
  then Done (Some (ErrNoBucket ""))
  else Ask (StoreDelete bucketName) (fun r => Done r).

(** [Project.GetBucket] *)
Definition GetBucket (bucketName : string) : Prog (Bucket * option Error) :=
  if String.eqb bucketName ""
  then Done (zeroBucket, Some (ErrNoBucket ""))
  else
    Ask (StoreGet bucketName)
        (fun r => match r with
                  | inl err => Done (zeroBucket, Some err)
                  | inr meta => Done (bucketFromMeta bucketName meta, None)
                  end).

End Project.

Arguments Done {R} r.
Arguments Ask {R X} op k.

End Kvmetainfo.

(** ** The library entry point (lib/uplink/main.go) *)

Module LibUplink.

(** [Session]; both fields are opaque handles. *)
Record Session : Type := mkSession {
  SessionTransportClient : string;
  Gateway : option string
}.

Definition Error : Type := string.

Section Placeholders.

(** Whatever state uploads would change. *)
Variable St : Type.

(** [Session.NewPartialUpload] *)
Definition NewPartialUpload (s : Session) (bucket : string)
  : St -> Go.outcome (string * option Error) * St :=
  Go.call (Go.panic "TODO").

(** [Session.ListPartialUploads] *)
Definition ListPartialUploads (s : Session) : St -> Go.outcome unit * St :=
  Go.call (Go.panic "TODO").

(** [Session.PutPartialUpload] *)
Definition PutPartialUpload (s : Session) : St -> Go.outcome unit * St :=
  Go.call (Go.panic "TODO").

(** [Session.FinishPartialUpload] *)
Definition FinishPartialUpload (s : Session) : St -> Go.outcome unit * St :=
  Go.call (Go.panic "TODO").

(** [Session.AbortPartialUpload] *)
Definition AbortPartialUpload (s : Session) (bucket uploadID : string)
  : St -> Go.outcome (option Error) * St :=
  Go.call (Go.panic "TODO").

End Placeholders.

End LibUplink.

(** ** The erasure code

    The coder itself ([infectious], [eestream]) is not among the available
    sources either.  What follows is a Reed-Solomon code as the
    specification describes it: [k] data units become [n] coded units, one
    per piece number, and any [k] of them give the data back. *)

(** *** The field of bytes, GF(2^8) *)

Module GF256.

(** Modelled from the spec: the field of the code is missing from the
    sources with the coder.  Bytes and a ceiling of 256 shares give
    GF(2^8); this is its reduction polynomial,
    [x^8 + x^4 + x^3 + x^2 + 1]. *)
Definition modulus : N := 285.

(** Modelled from the spec: multiplication by [x] in that field, a shift
    that is reduced when bit 7 was set. *)
Definition xtime (a : N) : N :=
  N.lxor (N.shiftl a 1) (if N.testbit a 7 then modulus else 0%N).

(** Modelled from the spec: shift-and-add multiplication over the low [n]
    bits of [b]. *)
Fixpoint mul_bits (n : nat) (a b : N) : N :=
  match n with
  | O => 0%N
  | S n' => N.lxor (if N.odd b then a else 0%N) (mul_bits n' (xtime a) (N.div2 b))
  end.

Definition nmul (a b : N) : N := mul_bits 8 a b.

(** The byte of a number below 256. *)
Definition of_N (n : N) : byte :=
  match Byte.of_N n with Some b => b | None => x00 end.

(** Modelled from the spec: the field operations on bytes; addition is
    exclusive or, so every element is its own opposite. *)
Definition zero : byte := x00.
Definition one : byte := x01.
Definition add (x y : byte) : byte := of_N (N.lxor (Byte.to_N x) (Byte.to_N y)).
Definition mul (x y : byte) : byte := of_N (nmul (Byte.to_N x) (Byte.to_N y)).
Definition opp (x : byte) : byte := x.
Definition sub (x y : byte) : byte := add x (opp y).

Fixpoint pow_pos (x : byte) (p : positive) : byte :=
  match p with
  | xH => x
  | xO p' => let y := pow_pos x p' in mul y y
  | xI p' => let y := pow_pos x p' in mul x (mul y y)
  end.

(** Modelled from the spec: the inverse of a non-zero element, its 254th
    power. *)
Definition inv (x : byte) : byte := pow_pos x 254.
Definition div (x y : byte) : byte := mul x (inv y).

(** The numbers below 256, and a byte as the sum of its bits. *)
Definition below256 : list N := map N.of_nat (seq 0 256).

Definition pw (i : nat) : N := (2 ^ N.of_nat i)%N.

Definition bit_part (a : N) (i : nat) : N :=
  if N.testbit a (N.of_nat i) then pw i else 0%N.

Definition bits_sum (a : N) : N :=
  fold_right N.lxor 0%N (map (bit_part a) (seq 0 8)).

(** A map of [N] that commutes with exclusive or. *)
Definition additive (f : N -> N) : Prop :=
  forall x y, f (N.lxor x y) = N.lxor (f x) (f y).

End GF256.

(** *** Polynomials over a field, as lists of coefficients, lowest first *)

Module Poly.
Section Defs.
Variable F : Type.
Variables (zero one : F) (add mul sub div : F -> F -> F).

(** Modelled from the spec: a block of [k] data units is read as the
    coefficients of a polynomial; this is its evaluation, by Horner's
    rule. *)
Definition peval (p : list F) (x : F) : F :=
  fold_right (fun c acc => add c (mul x acc)) zero p.

Definition coef (p : list F) (i : nat) : F := nth i p zero.

Fixpoint padd (p q : list F) : list F :=
  match p, q with
  | [], _ => q
  | _, [] => p
  | a :: p', b :: q' => add a b :: padd p' q'
  end.

Definition pscale (c : F) (p : list F) : list F := map (mul c) p.

Fixpoint shift_sub (a prev : F) (p : list F) : list F :=
  match p with
  | [] => [prev]
  | c :: p' => sub prev (mul a c) :: shift_sub a c p'
  end.

(** [(X - a) * p] *)
Definition mul_linear (a : F) (p : list F) : list F := shift_sub a zero p.

(** The product of [X - x] over [xs]. *)
Definition vanish (xs : list F) : list F := fold_right mul_linear [one] xs.

(** Modelled from the spec: reconstruction from coded units, as the
    polynomial through the given points.  It is built one point at a time:
    the polynomial through the rest, corrected by a multiple of the
    polynomial that vanishes on the rest. *)
Fixpoint interpolate (pts : list (F * F)) : list F :=
  match pts with
  | [] => []
  | (x, y) :: rest =>
      let q := interpolate rest in
      let m := vanish (map fst rest) in
      padd q (pscale (div (sub y (peval q x)) (peval m x)) m)
  end.

(** The first [k] coefficients. *)
Definition normalize (k : nat) (p : list F) : list F := map (coef p) (seq 0 k).

(** Division of [p] by [X - a]: quotient and remainder. *)
Fixpoint div_linear (a : F) (p : list F) : list F * F :=
  match p with
  | [] => ([], zero)
  | c :: p' =>
      match p' with
      | [] => ([], c)
      | _ => let (q', r') := div_linear a p' in (r' :: q', add c (mul a r'))
      end
  end.

End Defs.
End Poly.

(** *** Encoding and decoding *)

Module Erasure.
Import EEStream.

(** Modelled from the spec: the evaluation point of a piece number; piece
    numbers below the share ceiling have distinct points. *)
Definition point (i : nat) : byte := GF256.of_N (N.of_nat i).

Definition gf_peval : list byte -> byte -> byte :=
  Poly.peval byte GF256.zero GF256.add GF256.mul.
Definition gf_interpolate : list (byte * byte) -> list byte :=
  Poly.interpolate byte GF256.zero GF256.one GF256.add GF256.mul GF256.sub GF256.div.
Definition gf_normalize : nat -> list byte -> list byte :=
  Poly.normalize byte GF256.zero.

(** One erasure share: its piece number and its bytes. *)
Record Share : Type := mkShare { Number : nat; Data : list byte }.

Inductive ErasureError : Set :=
| NotEnoughShares
| InvalidPieceNumber
| StripeSizeMismatch.

Definition requiredCount (rs : RedundancyStrategy) : nat := Z.to_nat (RequiredCount rs).
Definition totalCount (rs : RedundancyStrategy) : nat := Z.to_nat (TotalCount rs).
Definition shareSize (rs : RedundancyStrategy) : nat := Z.to_nat (ErasureShareSize rs).

Definition ceil_div (a b : nat) : nat := ((a + b - 1) / b)%nat.
Definition round_up (a b : nat) : nat := (ceil_div a b * b)%nat.

(** Modelled from the spec: the size of every share of a plaintext of
    [len] bytes, "ceil(len/k) rounded to the share boundary". *)
Definition stripeSize (rs : RedundancyStrategy) (len : nat) : nat :=
  round_up (ceil_div len (requiredCount rs)) (shareSize rs).

Definition pad (total : nat) (p : list byte) : list byte :=
  p ++ repeat x00 (total - List.length p).

(** [count] consecutive blocks of [k] bytes. *)
Fixpoint blocks (k count : nat) (l : list byte) : list (list byte) :=
  match count with
  | O => []
  | S c => firstn k l :: blocks k c (skipn k l)
  end.

(** Modelled from the spec: [Encode(plaintext)] gives [n] shares of equal
    stripe size.  The zero-padded plaintext is cut into blocks of [k] bytes;
    a block is the coefficient list of a polynomial, and byte [t] of
    share [i] is the value of block [t] at the point of piece [i]. *)
Definition Encode (rs : RedundancyStrategy) (plaintext : list byte) : list Share :=
  let k := requiredCount rs in
  let s := stripeSize rs (List.length plaintext) in
  let blks := blocks k s (pad (k * s) plaintext) in
  map (fun i => mkShare i (map (fun blk => gf_peval blk (point i)) blks))
      (seq 0 (totalCount rs)).

(** Modelled from the spec: [Decode(shares, k)] accepts [k] distinct shares
    of equal stripe size identified by piece number, and fails with an
    erasure error on fewer than [k] shares, on a piece number that is
    repeated or out of range, and on mismatched stripe sizes.  Each block is
    interpolated from byte [t] of the first [k] shares; [size] is the
    plaintext size recorded with the segment, which removes the padding. *)
Definition Decode (rs : RedundancyStrategy) (size : nat) (shares : list Share)
  : ErasureError + list byte :=
  let k := requiredCount rs in
  if (List.length shares <? k)%nat then inl NotEnoughShares
  else if negb (bool_decide (NoDup (map Number shares))
                && forallb (fun s => (Number s <? totalCount rs)%nat) shares)
  then inl InvalidPieceNumber
  else
    let stripe := match shares with [] => O | s :: _ => List.length (Data s) end in
    if negb (forallb (fun s => (List.length (Data s) =? stripe)%nat) shares)
    then inl StripeSizeMismatch
    else
      let used := firstn k shares in
      inr (firstn size
             (concat (map (fun t => gf_normalize k
                                      (gf_interpolate
                                         (map (fun s => (point (Number s), nth t (Data s) x00))
                                              used)))
                          (seq 0 stripe)))).

(** The shares that survive: those with the given piece numbers, in the
    given order. *)
Definition surviving (shares : list Share) (numbers : list nat) : list Share :=
  map (fun i => nth i shares (mkShare O [])) numbers.

(** The blocks of a plaintext, and the share of a piece number: the pieces
    [Encode] is made of. *)
Definition plain_blocks (rs : RedundancyStrategy) (plaintext : list byte)
  : list (list byte) :=
  blocks (requiredCount rs) (stripeSize rs (List.length plaintext))
    (pad (requiredCount rs * stripeSize rs (List.length plaintext)) plaintext).

Definition share_of (rs : RedundancyStrategy) (plaintext : list byte) (i : nat)
  : Share :=
  mkShare i (map (fun blk => gf_peval blk (point i)) (plain_blocks rs plaintext)).

End Erasure.

(** ** Concrete configurations and worlds *)

Module Examples.
Import OS Storj Uplink.

(** Collaborators that all succeed. *)
Definition env_ok : Env :=
  {| tlsopts_NewOptions := fun _ _ => inr "tls-options"%string;
     metainfo_dial := fun _ _ => None;
     encryption_CalcEncryptedSize := fun size _ => inr size;
     streams_check := fun _ _ _ => None;
     storj_Cipher := fun x => x mod 256 |}.

(** The development defaults of the configuration. *)
Definition cfg_dev : Config :=
  {| Client := {| APIKey := "apikey"; SatelliteAddr := "127.0.0.1:10000";
                  MaxInlineSize := 4096; SegmentSize := 67108864 |};
     RS := {| MaxBufferMem := 4194304; ErasureShareSize := 1024;
              MinThreshold := 4; RepairThreshold := 6;
              SuccessThreshold := 8; MaxThreshold := 10 |};
     Enc := {| EncKey := ""; KeyFilepath := "/cfg/.enc.key"; BlockSize := 1024;
               DataType := 1; PathType := 1 |};
     TLS := "tls-config" |}.

Definition with_min (c : Config) (k : Z) : Config :=
  {| Client := Client c;
     RS := {| MaxBufferMem := MaxBufferMem (RS c);
              ErasureShareSize := ErasureShareSize (RS c);
              MinThreshold := k;
              RepairThreshold := RepairThreshold (RS c);
              SuccessThreshold := SuccessThreshold (RS c);
              MaxThreshold := MaxThreshold (RS c) |};
     Enc := Enc c;
     TLS := TLS c |}.

(** A minimum threshold of zero, and one that does not fit sixteen bits. *)
Definition cfg_bad_k : Config := with_min cfg_dev 0.
Definition cfg_wide : Config := with_min cfg_dev 65540.

(** A block size that does not divide ErasureShareSize * MinThreshold. *)
Definition cfg_bad_block : Config :=
  {| Client := Client cfg_dev;
     RS := RS cfg_dev;
     Enc := {| EncKey := ""; KeyFilepath := "/cfg/.enc.key"; BlockSize := 1000;
               DataType := 1; PathType := 1 |};
     TLS := TLS cfg_dev |}.

Definition no_fault : Syscall -> option Errno := fun _ => None.

(** A configuration directory without a key file, and one with a key file. *)
Definition world_setup : World :=
  {| fs := <["/cfg"%string := Dir 448]> ∅; fault := no_fault; trace := [] |}.

Definition world_keyed : World :=
  set_fs (<["/cfg/.enc.key"%string := File 256 [x07]]> (fs world_setup)) world_setup.


(** The passphrase "secret". *)
Definition passphrase : list byte := [x73; x65; x63; x72; x65; x74].

End Examples.

(** A small redundancy strategy and a plaintext for it. *)
Module CodingExamples.
Import EEStream Erasure.

Definition rs_2_4 : RedundancyStrategy :=
  mkRedundancyStrategy (mkRSScheme (mkFEC 2 4) 2) 3 4.

Definition hello : list byte := [x68; x65; x6c; x6c; x6f].

End CodingExamples.

(** ** Host and port defaults of the setup command
       (cmd/uplink/cmd/setup.go, ApplyDefaultHostAndPortToAddr and
       ApplyDefaultHostAndPortToAddrFlag) *)

Module SetupAddr.
Local Open Scope go_scope.

(** [strings.Split(s, sep)] for a separator of one character: the pieces
    between the separators, one more than there are separators. *)
Fixpoint strings_Split (s : string) (sep : ascii) : list string :=
  match s with
  | EmptyString => [EmptyString]
  | String c r =>
      if Ascii.eqb c sep
      then EmptyString :: strings_Split r sep
      else match strings_Split r sep with
           | p :: ps => String c p :: ps
           | [] => [String c EmptyString]
           end
  end.

(** [strings.Index(s, sep)] for a separator of one character: the position
    of its first occurrence, or -1. *)
Fixpoint strings_Index (s : string) (sep : ascii) : Z :=
  match s with
  | EmptyString => -1
  | String c r =>
      if Ascii.eqb c sep then 0
      else let i := strings_Index r sep in
           if i <? 0 then -1 else i + 1
  end.

(** [len(s)] *)
Definition len (s : string) : Z := Z.of_nat (String.length s).

(** [net.JoinHostPort(host, port)]: [host:port], with the host in brackets
    when it contains a colon. *)
Definition net_JoinHostPort (host port : string) : string :=
  if 0 <=? strings_Index host ":"
  then ("[" ++ host ++ "]:" ++ port)%string
  else (host ++ ":" ++ port)%string.

(** [parts[i]]; an index out of range is a run-time panic. *)
Definition index {R : Type} (parts : list string) (i : nat) : Go.exec unit R string :=
  match nth_error parts i with
  | Some p => Go.ret p
  | None => Go.panic "runtime error: index out of range"
  end.

(** [Error.Wrap(err)] with [Error = errs.Class("uplink setup error")], of
    an address error given by its message.  Wrapping an error that is of the
    class already returns it as it is. *)
Inductive Error : Type :=
| ErrSetup (e : string).

Section WithNet.

(** [net.SplitHostPort], of the Go library: the host and the port of an
    address, or an address error. *)
Variable net_SplitHostPort : string -> string + (string * string).

(** [ApplyDefaultHostAndPortToAddr] *)
Definition ApplyDefaultHostAndPortToAddr (address defaultAddress : string)
  : Go.outcome (string * option Error) :=
  fst (Go.call (
    do hp <- Go.try (Go.pure (net_SplitHostPort defaultAddress))
               (fun err => (EmptyString, Some (ErrSetup err)));
    let defaultHost := fst hp in
    let defaultPort := snd hp in
    let addressParts := strings_Split address ":" in
    let numberOfParts := Z.of_nat (List.length addressParts) in
    (* numberOfParts > 1 && len(addressParts[0]) > 0 && len(addressParts[1]) > 0 *)
    do complete <-
       (if 1 <? numberOfParts
        then do p0 <- index addressParts 0;
             if 0 <? len p0
             then do p1 <- index addressParts 1; Go.ret (0 <? len p1)
             else Go.ret false
        else Go.ret false);
    if (complete : bool) then Go.return_ (address, None)
    else
      let indexOfPortSeparator := strings_Index address ":" in
      do first <- index addressParts 0;
      let lengthOfFirstPart := len first in
      if indexOfPortSeparator <? 0
      then
        if lengthOfFirstPart =? 0
        then Go.return_ (defaultAddress, None)
        else do p0 <- index addressParts 0;
             Go.return_ (net_JoinHostPort p0 defaultPort, None)
      else if indexOfPortSeparator =? 0
      then do p1 <- index addressParts 1;
           Go.return_ (net_JoinHostPort defaultHost p1, None)
      else do p0 <- index addressParts 0;
           Go.return_ (net_JoinHostPort p0 defaultPort, None)) tt).

(** A string flag of the command: its value and its default. *)
Record Flag : Type := mkFlag { FlagValue : string; DefValue : string }.

(** [ApplyDefaultHostAndPortToAddrFlag], over the flags of the command.
    The address flags are string flags: [flag.Value.Set] stores its
    argument and does not fail, and [Error.Wrap(nil)] is [nil]. *)
Definition ApplyDefaultHostAndPortToAddrFlag (flagName : string)
  : gmap string Flag -> Go.outcome (option Error) * gmap string Flag :=
  Go.call (
    do flag <- (fun flags => match flags !! flagName with
                             | None => (Go.Return None, flags)
                             | Some f => (Go.Next f, flags)
                             end);
    do r <- (fun flags =>
               match ApplyDefaultHostAndPortToAddr (FlagValue flag) (DefValue flag) with
               | Go.Returned r => (Go.Next r, flags)
               | Go.Panics msg => (Go.Panicked msg, flags)
               end);
    match snd r with
    | Some err => Go.return_ (Some err)
    | None =>
        let address := fst r in
        if String.eqb (FlagValue flag) address
        then Go.return_ None
        else fun flags =>
               (Go.Return None, <[flagName := mkFlag address (DefValue flag)]> flags)
    end).

End WithNet.

(** The pieces joined again, with the separator between them. *)
Fixpoint join_colon (parts : list string) : string :=
  match parts with
  | [] => EmptyString
  | [p] => p
  | p :: ps => (p ++ ":" ++ join_colon ps)%string
  end.

(** A string without a colon. *)
Definition no_colon (s : string) : Prop := strings_Index s ":" = -1.

End SetupAddr.

(** ** Listing buckets (pkg/metainfo/kvmetainfo/buckets.go, ListBuckets) *)

Module KvmetainfoList.
Import Storj.

(** [storj.ListDirection]: the four directions the switch of ListBuckets
    names, which are distinct constants, and any other value. *)
Inductive ListDirection : Type :=
| Before | Backward | Forward | After
| OtherDirection (d : Z).

(** [storj.BucketListOptions] *)
Record BucketListOptions : Type := mkBucketListOptions {
  Cursor : string;
  Direction : ListDirection;
  Limit : Z
}.

(** An item of the bucket store's listing. *)
Record ListItem : Type := mkListItem { ItemBucket : string; ItemMeta : Kvmetainfo.Meta }.

Inductive Error : Type :=
| ErrInvalidDirection (d : Z)  (* errClass.New("invalid direction %d", ...) *)
| ErrStore (e : string).       (* an error of the bucket store, returned as it is *)

(** ListBuckets asks the bucket store one thing only,
    [db.buckets.List(ctx, startAfter, endBefore, limit)]. *)
Inductive ListProg (R : Type) : Type :=
| ListDone (r : R)
| AskList (startAfter endBefore : string) (limit : Z)
          (k : string + (list ListItem * bool) -> ListProg R).
Arguments ListDone {R} r.
Arguments AskList {R} startAfter endBefore limit k.

(** Running it against a store with state [St]. *)
Fixpoint list_interp {St R : Type}
  (h : string -> string -> Z -> St -> (string + (list ListItem * bool)) * St)
  (p : ListProg R) (s : St) : R * St :=
  match p with
  | ListDone r => (r, s)
  | AskList sa eb limit k => let (x, s') := h sa eb limit s in list_interp h (k x) s'
  end.

(** The key the code uses in the place of the last key: seven bytes 0x7f. *)
Definition lastKey : string :=
  String "127" (String "127" (String "127" (String "127"
    (String "127" (String "127" (String "127" EmptyString)))))).

Section Project.

Variable EncryptionParameters : Type.
Variable zeroEncryptionParameters : EncryptionParameters.
Variable ToEncryptionParameters : EncryptionScheme -> EncryptionParameters.

(** [keyAfter] and [keyBefore] are helpers of the package that are declared
    in another file. *)
Variables keyAfter keyBefore : string -> string.

(** [storj.BucketList] *)
Record BucketList : Type := mkBucketList {
  More : bool;
  Items : list (Kvmetainfo.Bucket EncryptionParameters)
}.

(** [storj.BucketList{}] *)
Definition zeroBucketList : BucketList := mkBucketList false [].

Definition is_backwards (d : ListDirection) : bool :=
  match d with Before | Backward => true | _ => false end.

(** [Project.ListBuckets] *)
Definition ListBuckets (options : BucketListOptions)
  : ListProg (BucketList * option Error) :=
  match
    match Direction options with
    | Before => inr (EmptyString, Cursor options)
    | Backward => inr (EmptyString, keyAfter (Cursor options))
    | Forward => inr (keyBefore (Cursor options), EmptyString)
    | After => inr (Cursor options, EmptyString)
    | OtherDirection d => inl d
    end
  with
  | inl d => ListDone (zeroBucketList, Some (ErrInvalidDirection d))
  | inr (startAfter, endBefore) =>
      let endBefore :=
        if String.eqb (Cursor options) "" && is_backwards (Direction options)
        then lastKey else endBefore in
      AskList startAfter endBefore (Limit options)
        (fun r => match r with
                  | inl err => ListDone (zeroBucketList, Some (ErrStore err))
                  | inr (items, more) =>
                      ListDone
                        ({| More := more;
                            Items := map (fun item =>
                                            Kvmetainfo.bucketFromMeta EncryptionParameters
                                              ToEncryptionParameters
                                              (ItemBucket item) (ItemMeta item))
                                         items |},
                         None)
                  end)
  end.

End Project.

End KvmetainfoList.

(** ** The field selectors of the library (lib/uplink/main.go) *)

Module LibUplinkFields.

(** The constant block of [ListObjectsField]: each line with its
    expression, a function of [iota], the index of the line in the block. *)
Definition const_block : list (string * (Z -> Z)) :=
  [ ("ListObjectsMetaNone"%string, fun _ => 0);
    ("ListObjectsMetaModified"%string, fun iota => Z.shiftl 1 iota);
    ("ListObjectsMetaExpiration"%string, fun iota => Z.shiftl 1 iota);
    ("ListObjectsMetaSize"%string, fun iota => Z.shiftl 1 iota);
    ("ListObjectsMetaChecksum"%string, fun iota => Z.shiftl 1 iota);
    ("ListObjectsMetaUserDefined"%string, fun iota => Z.shiftl 1 iota);
    ("ListObjectsMetaAll"%string, fun iota => Z.shiftl 1 iota) ].

(** The value of the constant on line [i]. *)
Definition const_value (i : nat) : Z :=
  match nth_error const_block i with
  | Some (_, e) => e (Z.of_nat i)
  | None => 0
  end.

Definition ListObjectsMetaNone : Z := const_value 0.
Definition ListObjectsMetaModified : Z := const_value 1.
Definition ListObjectsMetaExpiration : Z := const_value 2.
Definition ListObjectsMetaSize : Z := const_value 3.
Definition ListObjectsMetaChecksum : Z := const_value 4.
Definition ListObjectsMetaUserDefined : Z := const_value 5.
Definition ListObjectsMetaAll : Z := const_value 6.

(** The selectors of single fields. *)
Definition single_fields : list Z :=
  [ListObjectsMetaModified; ListObjectsMetaExpiration; ListObjectsMetaSize;
   ListObjectsMetaChecksum; ListObjectsMetaUserDefined].

End LibUplinkFields.

(** ** Further concrete inputs *)

Module MoreExamples.
Import OS SetupAddr.

(** A splitter for addresses without brackets: host and port around the
    only colon. *)
Definition split_plain (s : string) : string + (string * string) :=
  match strings_Split s ":" with
  | [h; p] => inr (h, p)
  | _ => inl "missing port in address"%string
  end.

(** A world in which writes fail, and one in which closing fails. *)
Definition fault_write : Syscall -> option Errno :=
  fun c => match c with SysWrite => Some ENOSPC | _ => None end.
Definition fault_close : Syscall -> option Errno :=
  fun c => match c with SysClose => Some EIO | _ => None end.

Definition world_full_disk : World :=
  {| fs := fs Examples.world_setup; fault := fault_write; trace := [] |}.
Definition world_bad_close : World :=
  {| fs := fs Examples.world_setup; fault := fault_close; trace := [] |}.

(** A key file of forty bytes with mode 0400. *)
Definition long_key : list byte := repeat x41 40.
Definition world_long_key : World :=
  set_fs (<["/cfg/.enc.key"%string := File 256 long_key]> (fs Examples.world_setup))
    Examples.world_setup.

(** A world in which changing the mode fails, and closing as well. *)
Definition fault_chmod : Syscall -> option Errno :=
  fun c => match c with SysChmod => Some EACCES | SysClose => Some EIO | _ => None end.
Definition world_bad_chmod : World :=
  {| fs := fs Examples.world_setup; fault := fault_chmod; trace := [] |}.

(** The development configuration without a satellite address. *)
Definition cfg_no_addr : Uplink.Config :=
  {| Uplink.Client := {| Uplink.APIKey := "apikey"; Uplink.SatelliteAddr := "";
                         Uplink.MaxInlineSize := 4096; Uplink.SegmentSize := 67108864 |};
     Uplink.RS := Uplink.RS Examples.cfg_dev;
     Uplink.Enc := Uplink.Enc Examples.cfg_dev;
     Uplink.TLS := Uplink.TLS Examples.cfg_dev |}.

(** A bucket store kept in a map. *)
Definition map_store (X : Type) (op : Kvmetainfo.StoreOp X)
  (st : gmap string Kvmetainfo.Meta) : X * gmap string Kvmetainfo.Meta :=
  match op in Kvmetainfo.StoreOp T return T * gmap string Kvmetainfo.Meta with
  | Kvmetainfo.StorePut b m => (inr m, <[b := m]> st)
  | Kvmetainfo.StoreGet b =>
      (match st !! b with
       | Some m => inr m
       | None => inl (Kvmetainfo.ErrStore "bucket not found")
       end, st)
  | Kvmetainfo.StoreDelete b =>
      (match st !! b with
       | Some _ => None
       | None => Some (Kvmetainfo.ErrStore "bucket not found")
       end, delete b st)
  end.

End MoreExamples.

(* ================================================================== *)
(** * Part II: properties                                              *)
(* ================================================================== *)

Import OS Storj EEStream Uplink Setup Examples.

(** Unfolding of the control-flow combinators. *)
Ltac go_unfold :=
  unfold Go.call, Go.try, Go.return_if, Go.invoke, Go.lift, Go.pure in *;
  unfold Go.bind, Go.ret, Go.return_, Go.panic in *; cbv beta in *.

(** ** Machine integers *)

Lemma wrap_small (w x : Z) :
  0 < w -> - 2 ^ (w - 1) <= x < 2 ^ (w - 1) -> GoInt.wrap w x = x.
Proof.
  intros Hw Hx. unfold GoInt.wrap.
  assert (H2 : 2 ^ w = 2 * 2 ^ (w - 1)).
  { replace w with (Z.succ (w - 1)) at 1 by lia. apply Z.pow_succ_r. lia. }
  rewrite Z.mod_small; lia.
Qed.

Lemma int16_small (x : Z) : GoInt.in_int16 x -> GoInt.int16 x = x.
Proof. intros H. apply wrap_small; [lia|]. unfold GoInt.in_int16 in H. simpl. lia. Qed.

Lemma int32_small (x : Z) : GoInt.in_int32 x -> GoInt.int32 x = x.
Proof. intros H. apply wrap_small; [lia|]. unfold GoInt.in_int32 in H. simpl. lia. Qed.

Lemma int_small (x : Z) : GoInt.in_int x -> GoInt.int x = x.
Proof. intros H. apply wrap_small; [lia|]. unfold GoInt.in_int in H. simpl. lia. Qed.

(** ** The key file *)

Lemma os_Open_eq (name : string) (w : World) :
  os_Open name w =
  (match fs w !! name with
   | Some _ => inr name
   | None => match fs w !! dirname name with
             | Some (File _ _) => inl ENOTDIR
             | _ => inl ENOENT
             end
   end, log (EvOpenFile name O_RDONLY) w).
Proof.
  unfold os_Open, os_OpenFile. simpl.
  destruct (fs w !! name); [reflexivity|].
  destruct (fs w !! dirname name) as [[|]|]; reflexivity.
Qed.

(** [keyFilepath.Key] as a decision tree over the world it runs in. *)
Lemma keyFilepath_Key_eq (kfp : string) (w : World) :
  keyFilepath_Key kfp w =
  let w1 := log (EvOpenFile kfp O_RDONLY) w in
  match fs w !! kfp with
  | None =>
      match fs w !! dirname kfp with
      | Some (File _ _) => (Go.Returned (zeroKey, Some (ErrWrapped ENOTDIR)), w1)
      | _ => (Go.Returned (zeroKey, Some (ErrConfig (KeyNotFound kfp))), w1)
      end
  | Some n =>
      match fault w SysStat with
      | Some e => (Go.Returned (zeroKey, Some (ErrWrapped e)), w1)
      | None =>
          if Perm (node_mode n) =? 256 then
            match fault w SysRead with
            | Some e => (Go.Returned (zeroKey, Some (ErrWrapped e)), w1)
            | None =>
                match n with
                | File _ data => (Go.Returned (key_of_read (firstn KeySize data), None), w1)
                | Dir _ => (Go.Returned (zeroKey, Some (ErrWrapped EISDIR)), w1)
                end
            end
          else (Go.Returned (zeroKey, Some (ErrConfig (KeyTooOpen (Perm (node_mode n)) kfp))), w1)
      end
  end.
Proof.
  unfold keyFilepath_Key. go_unfold. rewrite os_Open_eq. cbv zeta.
  destruct (fs w !! kfp) as [n|] eqn:Hn.
  - unfold file_Stat, file_Read. cbn [fault fs log].
    destruct (fault w SysStat); [reflexivity|].
    rewrite Hn.
    destruct (Perm (node_mode n) =? 256); cbn [negb fault fs log]; [|reflexivity].
    destruct (fault w SysRead); [reflexivity|].
    rewrite Hn.
    destruct n as [m data|m]; [|reflexivity].
    destruct (firstn KeySize data) eqn:Hd; reflexivity.
  - destruct (fs w !! dirname kfp) as [[|]|]; reflexivity.
Qed.

(** The key loader always returns, and only adds its open to the trace. *)
Lemma keyFilepath_Key_world (kfp : string) (w : World) :
  exists r, keyFilepath_Key kfp w = (Go.Returned r, log (EvOpenFile kfp O_RDONLY) w).
Proof.
  rewrite keyFilepath_Key_eq. cbv zeta.
  destruct (fs w !! kfp) as [n|].
  - destruct (fault w SysStat); [eexists; reflexivity|].
    destruct (Perm (node_mode n) =? 256); [|eexists; reflexivity].
    destruct (fault w SysRead); [eexists; reflexivity|].
    destruct n; eexists; reflexivity.
  - destruct (fs w !! dirname kfp) as [[|]|]; eexists; reflexivity.
Qed.

Lemma keyFilepath_Key_no_violation (kfp : string) (w w' : World) (k : Key) (e : Uplink.Error) :
  keyFilepath_Key kfp w = (Go.Returned (k, Some e), w') ->
  is_config_violation e = false.
Proof.
  rewrite keyFilepath_Key_eq. cbv zeta. intros H.
  destruct (fs w !! kfp) as [n|].
  - destruct (fault w SysStat); [inversion H; reflexivity|].
    destruct (Perm (node_mode n) =? 256); [|inversion H; reflexivity].
    destruct (fault w SysRead); [inversion H; reflexivity|].
    destruct n; inversion H; reflexivity.
  - destruct (fs w !! dirname kfp) as [[|]|]; inversion H; reflexivity.
Qed.



(** ** Saving the key during setup *)

Lemma os_OpenFile_create_excl (name : string) (perm : Z) (w : World) :
  os_OpenFile name save_flags perm w =
  let w1 := log (EvOpenFile name save_flags) w in
  match fs w !! name with
  | Some _ => (inl EEXIST, w1)
  | None =>
      match fs w !! dirname name with
      | Some (Dir _) => (inr name, set_fs (<[name := File perm []]> (fs w)) w1)
      | Some (File _ _) => (inl ENOTDIR, w1)
      | None => (inl ENOENT, w1)
      end
  end.
Proof.
  unfold os_OpenFile. cbv zeta.
  change (has_flag save_flags O_CREATE) with true.
  change (has_flag save_flags O_EXCL) with true.
  reflexivity.
Qed.

(** [SaveEncryptionKey] as a decision tree over the world it runs in. *)
Lemma SaveEncryptionKey_eq (key : list byte) (filepath : string) (w : World) :
  SaveEncryptionKey key filepath w =
  let w1 := log (EvOpenFile filepath save_flags) w in
  match fs w !! filepath with
  | Some _ => (Go.Returned (Some ErrFileKeyExists), w1)
  | None =>
      match fs w !! dirname filepath with
      | Some (File _ _) => (Go.Returned (Some (ErrOs ENOTDIR)), w1)
      | None => (Go.Returned (Some ErrDirMissing), w1)
      | Some (Dir _) =>
          let w2 := set_fs (<[filepath := File 384 []]> (fs w)) w1 in
          match fault w SysWrite with
          | Some e => (Go.Returned (Some (ErrOs e)), w2)
          | None =>
              let w3 := set_fs (<[filepath := File 384 key]> (fs w)) w1 in
              match fault w SysChmod with
              | Some e => (Go.Returned (Some (ErrOs e)), w3)
              | None =>
                  (Go.Returned (option_map ErrOs (fault w SysClose)),
                   set_fs (<[filepath := File 256 key]> (fs w)) w1)
              end
          end
      end
  end.
Proof.
  unfold SaveEncryptionKey. go_unfold.
  rewrite os_OpenFile_create_excl. cbv zeta.
  destruct (fs w !! filepath) as [n|]; [reflexivity|].
  destruct (fs w !! dirname filepath) as [[m d|m]|]; try reflexivity.
  unfold file_Write, file_Chmod, file_Close, set_fs. cbn [fault fs log trace].
  destruct (fault w SysWrite) as [e|].
  { cbn [fault fs log trace]. destruct (fault w SysClose); reflexivity. }
  rewrite lookup_insert_eq. cbn [fault fs log trace app].
  rewrite insert_insert_eq.
  destruct (fault w SysChmod) as [e|].
  { cbn [fault fs log trace]. destruct (fault w SysClose); reflexivity. }
  rewrite lookup_insert_eq. cbn [fault fs log trace].
  rewrite insert_insert_eq.
  cbn [fault fs log trace]. destruct (fault w SysClose); reflexivity.
Qed.

(** A successful save found no entry at the path, in an existing directory,
    and leaves the key in a file of mode 0400. *)
Lemma SaveEncryptionKey_success (key : list byte) (filepath : string) (w w' : World) :
  SaveEncryptionKey key filepath w = (Go.Returned None, w') ->
  fs w !! filepath = None
  /\ (exists m, fs w !! dirname filepath = Some (Dir m))
  /\ fs w' = <[filepath := File 256 key]> (fs w).
Proof.
  rewrite SaveEncryptionKey_eq. cbv zeta. intros H.
  destruct (fs w !! filepath); [discriminate|].
  destruct (fs w !! dirname filepath) as [[|m]|]; try discriminate.
  destruct (fault w SysWrite); [discriminate|].
  destruct (fault w SysChmod); [discriminate|].
  inversion H. split; [reflexivity|]. split; [eexists|]; reflexivity.
Qed.



(** The passphrase part of [cmdSetup] as a decision tree. *)
Lemma cmdSetup_passphrase_eq (encKey repeatedEncKey : list byte) (path : string) (w : World) :
  cmdSetup_passphrase encKey repeatedEncKey path w =
  if negb (bytes_Equal encKey repeatedEncKey)
  then (Go.Returned (Some ErrPassphraseMismatch), w)
  else if Nat.eqb (List.length encKey) 0
  then match fault w SysPrint with
       | Some e => (Go.Returned (Some (ErrOs e)), w)
       | None => (Go.Returned None, log (EvPrint "Warning: Encryption passphrase is empty!") w)
       end
  else SaveEncryptionKey encKey path w.
Proof.
  unfold cmdSetup_passphrase. go_unfold.
  destruct (negb _); [reflexivity|].
  destruct (Nat.eqb _ _).
  - unfold fmt_Println. destruct (fault w SysPrint); reflexivity.
  - destruct (SaveEncryptionKey encKey path w) as [[[e|]|msg] w']; reflexivity.
Qed.

(** ** Construction of the client: [Config.GetMetainfo] *)

(** [GetMetainfo] as a decision tree over its collaborators. *)
Lemma GetMetainfo_eq (env : Env) (c : Config) (identity : Identity) (w : World) :
  GetMetainfo env c identity w =
  match tlsopts_NewOptions env identity (TLS c) with
  | inl err => (Go.Returned (fail3 (ErrForeign err)), w)
  | inr tlsOpts =>
    if String.eqb (SatelliteAddr (Client c)) ""
    then (Go.Returned (fail3 ErrNoSatelliteAddr), w)
    else
    let tc := transport_NewClient tlsOpts in
    let w1 := log (EvDial (SatelliteAddr (Client c)) (APIKey (Client c))) w in
    match metainfo_dial env (SatelliteAddr (Client c)) (APIKey (Client c)) with
    | Some err => (Go.Returned (fail3 (ErrConfig (FailedConnect err))), w1)
    | None =>
      let metainfo := mkMetainfoClient tc (SatelliteAddr (Client c)) (APIKey (Client c)) in
      match NewFEC (MinThreshold (RS c)) (MaxThreshold (RS c)) with
      | inl err => (Go.Returned (fail3 (ErrConfig (FailedFEC err))), w1)
      | inr fc =>
        match NewRedundancyStrategy (NewRSScheme fc (Size_Int (Uplink.ErasureShareSize (RS c))))
                (RepairThreshold (RS c)) (SuccessThreshold (RS c)) with
        | inl err => (Go.Returned (fail3 (ErrConfig (FailedRS err))), w1)
        | inr rs =>
          match encryption_CalcEncryptedSize env (Size_Int64 (SegmentSize (Client c)))
                  (GetEncryptionScheme env c) with
          | inl err => (Go.Returned (fail3 (ErrConfig (FailedCalcSize err))), w1)
          | inr maxEnc =>
            let segments := mkSegmentStore metainfo
                              (mkECClient tc (Size_Int (MaxBufferMem (RS c)))) rs
                              (Size_Int (MaxInlineSize (Client c))) maxEnc in
            if Size_Int (BlockSize (Enc c)) =? 0
            then (Go.Panics "runtime error: integer divide by zero", w1)
            else if negb (GoInt.rem (GoInt.mul (Size_Int (Uplink.ErasureShareSize (RS c)))
                                       (MinThreshold (RS c)))
                            (Size_Int (BlockSize (Enc c))) =? 0)
            then (Go.Returned (fail3 (ErrConfig BlockSizeMultiple)), w1)
            else
            match keyFilepath_Key (KeyFilepath (Enc c)) w1 with
            | (Go.Panics msg, w2) => (Go.Panics msg, w2)
            | (Go.Returned (_, Some err), w2) => (Go.Returned (fail3 err), w2)
            | (Go.Returned (key, None), w2) =>
              match streams_NewStreamStore env segments (Size_Int64 (SegmentSize (Client c)))
                      key (Size_Int (BlockSize (Enc c)))
                      (storj_Cipher env (DataType (Enc c))) with
              | inl err => (Go.Returned (fail3 (ErrConfig (FailedStreamStore err))), w2)
              | inr streams =>
                (Go.Returned (Some (mkDB metainfo (mkBucketStore streams) streams segments key
                                      (Size_Int32 (BlockSize (Enc c))) rs
                                      (Size_Int64 (SegmentSize (Client c)))),
                              Some streams, None), w2)
              end
            end
          end
        end
      end
    end
  end.
Proof.
  unfold GetMetainfo. go_unfold.
  destruct (tlsopts_NewOptions env identity (TLS c)) as [e|tlsOpts]; [reflexivity|].
  destruct (String.eqb (SatelliteAddr (Client c)) ""); [reflexivity|].
  unfold metainfo_NewClient. cbv zeta.
  destruct (metainfo_dial env _ _); [reflexivity|].
  destruct (NewFEC _ _) as [e|fc]; [reflexivity|].
  destruct (NewRedundancyStrategy _ _ _) as [e|rs]; [reflexivity|].
  destruct (encryption_CalcEncryptedSize env _ _) as [e|sz]; [reflexivity|].
  destruct (Size_Int (BlockSize (Enc c)) =? 0); [reflexivity|].
  destruct (negb _); [reflexivity|].
  destruct (keyFilepath_Key _ _) as [[[key [err|]]|msg] w2]; try reflexivity.
  cbn [fst snd].
  destruct (streams_NewStreamStore _ _ _ _ _ _); reflexivity.
Qed.

(** With a key file in place the development configuration yields both
    stores, holding the key that was read. *)
Lemma GetMetainfo_succeeds_example :
  exists db ss w',
    GetMetainfo env_ok cfg_dev "id" world_keyed = (Go.Returned (Some db, Some ss, None), w')
    /\ db_key db = key_of_read [x07]
    /\ str_key ss = key_of_read [x07]
    /\ trace w' = [EvDial "127.0.0.1:10000" "apikey"; EvOpenFile "/cfg/.enc.key" O_RDONLY].
Proof.
  eexists _, _, _. split; [vm_compute; reflexivity|]. repeat split.
Qed.


(** C2 as stated fails: with the development defaults the product
    ErasureShareSize * MinThreshold is an exact multiple of BlockSize, and
    GetMetainfo still fails with an error of the configuration class (the
    key file is missing). *)
Lemma GetMetainfo_config_error_with_exact_multiple :
  (Uplink.ErasureShareSize (RS cfg_dev) * MinThreshold (RS cfg_dev))
    mod BlockSize (Enc cfg_dev) = 0
  /\ exists e, fst (GetMetainfo env_ok cfg_dev "id" world_setup) = Go.Returned (fail3 e)
               /\ is_config_class e = true.
Proof.
  split; [reflexivity|].
  exists (ErrConfig (KeyNotFound "/cfg/.enc.key")). split; vm_compute; reflexivity.
Qed.

(** C2 (amended): GetMetainfo returns the share/block-size configuration
    error exactly when every earlier construction step succeeds, BlockSize
    is not zero and (ErasureShareSize * MinThreshold) % BlockSize, computed
    on Go ints, is not zero; when it is zero the check passes.  For sizes
    within the int range whose product does not overflow, that remainder is
    zero exactly when the product is a multiple of BlockSize. *)
Theorem GetMetainfo_block_size_check (env : Env) (c : Config) (identity : Identity) (w : World) :
  (fst (GetMetainfo env c identity w) = Go.Returned (fail3 (ErrConfig BlockSizeMultiple))
   <-> reaches_block_size_check env c identity = true
       /\ Size_Int (BlockSize (Enc c)) <> 0
       /\ GoInt.rem (GoInt.mul (Size_Int (Uplink.ErasureShareSize (RS c))) (MinThreshold (RS c)))
            (Size_Int (BlockSize (Enc c))) <> 0)
  /\ (GoInt.in_int (Uplink.ErasureShareSize (RS c)) ->
      GoInt.in_int (BlockSize (Enc c)) ->
      GoInt.in_int (Uplink.ErasureShareSize (RS c) * MinThreshold (RS c)) ->
      BlockSize (Enc c) <> 0 ->
      (GoInt.rem (GoInt.mul (Size_Int (Uplink.ErasureShareSize (RS c))) (MinThreshold (RS c)))
         (Size_Int (BlockSize (Enc c))) = 0
       <-> (Uplink.ErasureShareSize (RS c) * MinThreshold (RS c)) mod BlockSize (Enc c) = 0)).
Proof.
  split.
  - rewrite GetMetainfo_eq.
    unfold reaches_block_size_check, reaches_erasure_construction.
    destruct (tlsopts_NewOptions env identity (TLS c)) as [e|t]; cbn [is_ok andb fst].
    { split; [discriminate|intros [? _]; discriminate]. }
    destruct (String.eqb (SatelliteAddr (Client c)) ""); cbn [negb andb fst].
    { split; [discriminate|intros [? _]; discriminate]. }
    cbv zeta.
    destruct (metainfo_dial env _ _); cbn [andb fst].
    { split; [discriminate|intros [? _]; discriminate]. }
    destruct (NewFEC _ _) as [e|fc]; cbn [andb fst].
    { split; [discriminate|intros [? _]; discriminate]. }
    destruct (NewRedundancyStrategy _ _ _) as [e|rs]; cbn [is_ok andb fst].
    { split; [discriminate|intros [? _]; discriminate]. }
    destruct (encryption_CalcEncryptedSize env _ _) as [e|sz]; cbn [is_ok andb fst].
    { split; [discriminate|intros [? _]; discriminate]. }
    destruct (Size_Int (BlockSize (Enc c)) =? 0) eqn:Hbs; cbn [fst].
    { apply Z.eqb_eq in Hbs. split; [discriminate|intros (_ & ? & _); contradiction]. }
    apply Z.eqb_neq in Hbs.
    destruct (GoInt.rem _ _ =? 0) eqn:Hr; cbn [negb fst].
    + apply Z.eqb_eq in Hr. split; [|intros (_ & _ & ?); contradiction].
      destruct (keyFilepath_Key _ _) as [[[key [err|]]|msg] w2] eqn:Hk; cbn [fst].
      * intros H. apply keyFilepath_Key_no_violation in Hk.
        inversion H; subst err. discriminate.
      * destruct (streams_NewStreamStore _ _ _ _ _ _); discriminate.
      * discriminate.
    + apply Z.eqb_neq in Hr. split; auto.
  - intros He Hb Hp Hnz.
    unfold GoInt.rem, GoInt.mul, Size_Int.
    rewrite (int_small _ He), (int_small _ Hb), (int_small _ Hp).
    rewrite Z.rem_divide by assumption. rewrite <- Z.mod_divide by assumption.
    reflexivity.
Qed.

(** With the development defaults the remainder on Go ints is the
    mathematical one. *)
Lemma GetMetainfo_block_size_check_witness :
  GoInt.rem (GoInt.mul (Size_Int (Uplink.ErasureShareSize (RS cfg_dev)))
               (MinThreshold (RS cfg_dev)))
    (Size_Int (BlockSize (Enc cfg_dev))) = 0
  <-> (Uplink.ErasureShareSize (RS cfg_dev) * MinThreshold (RS cfg_dev))
        mod BlockSize (Enc cfg_dev) = 0.
Proof.
  apply (proj2 (GetMetainfo_block_size_check env_ok cfg_dev "id" world_setup)).
  - unfold GoInt.in_int. simpl. lia.
  - unfold GoInt.in_int. simpl. lia.
  - unfold GoInt.in_int. simpl. lia.
  - simpl. lia.
Defined.

(** C3 as stated fails: with a block size that does not divide
    ErasureShareSize * MinThreshold, GetMetainfo returns the share/block-size
    configuration error only after it has dialled the metainfo service. *)
Lemma GetMetainfo_dials_before_rejecting :
  exists w',
    GetMetainfo env_ok cfg_bad_block "id" world_setup
    = (Go.Returned (fail3 (ErrConfig BlockSizeMultiple)), w')
    /\ is_config_violation (ErrConfig BlockSizeMultiple) = true
    /\ trace w' = [EvDial "127.0.0.1:10000" "apikey"]
    /\ existsb is_network (trace w') = true.
Proof.
  eexists. split; [vm_compute; reflexivity|]. repeat split.
Qed.

(** C3 (amended): whenever GetMetainfo returns a configuration violation
    (rejected thresholds or the share/block-size mismatch), it returns no
    stores, the connection to the metainfo service has been made and has
    succeeded, that dial is the only event added to the trace, so the key
    file has not been opened, and the file tree is unchanged. *)
Theorem GetMetainfo_violation_after_connect (env : Env) (c : Config) (identity : Identity)
  (w w' : World) (r : Result3) (e : Uplink.Error) :
  GetMetainfo env c identity w = (Go.Returned r, w') ->
  snd r = Some e ->
  is_config_violation e = true ->
  r = fail3 e
  /\ metainfo_dial env (SatelliteAddr (Client c)) (APIKey (Client c)) = None
  /\ trace w' = trace w ++ [EvDial (SatelliteAddr (Client c)) (APIKey (Client c))]
  /\ fs w' = fs w.
Proof.
  rewrite GetMetainfo_eq. intros H Hr Hv.
  destruct (tlsopts_NewOptions env identity (TLS c)) as [e1|t].
  { inversion H; subst. cbn in Hr. inversion Hr; subst e. discriminate. }
  destruct (String.eqb (SatelliteAddr (Client c)) "").
  { inversion H; subst. cbn in Hr. inversion Hr; subst e. discriminate. }
  cbv zeta in H.
  destruct (metainfo_dial env _ _).
  { inversion H; subst. cbn in Hr. inversion Hr; subst e. discriminate. }
  destruct (NewFEC _ _) as [e1|fc].
  { inversion H; subst. cbn in Hr. inversion Hr; subst e. auto. }
  destruct (NewRedundancyStrategy _ _ _) as [e1|rs].
  { inversion H; subst. cbn in Hr. inversion Hr; subst e. auto. }
  destruct (encryption_CalcEncryptedSize env _ _) as [e1|sz].
  { inversion H; subst. cbn in Hr. inversion Hr; subst e. discriminate. }
  destruct (Size_Int (BlockSize (Enc c)) =? 0); [discriminate|].
  destruct (negb _).
  { inversion H; subst. cbn in Hr. inversion Hr; subst e. auto. }
  destruct (keyFilepath_Key _ _) as [[[key [err|]]|msg] w2] eqn:Hk.
  - apply keyFilepath_Key_no_violation in Hk.
    inversion H; subst. cbn in Hr. inversion Hr; subst e. congruence.
  - destruct (streams_NewStreamStore _ _ _ _ _ _).
    + inversion H; subst. cbn in Hr. inversion Hr; subst e. discriminate.
    + inversion H; subst. cbn in Hr. discriminate.
  - discriminate.
Qed.

(** The rejection of a zero minimum threshold comes after the dial. *)
Lemma GetMetainfo_violation_after_connect_witness :
  exists w',
    GetMetainfo env_ok cfg_bad_k "id" world_setup
    = (Go.Returned (fail3 (ErrConfig (FailedFEC "requires 0 < k <= n <= 256"))), w')
    /\ trace w' = trace world_setup ++ [EvDial "127.0.0.1:10000" "apikey"]
    /\ fs w' = fs world_setup.
Proof.
  eexists. split; [vm_compute; reflexivity|].
  apply (GetMetainfo_violation_after_connect env_ok cfg_bad_k "id" world_setup _
           (fail3 (ErrConfig (FailedFEC "requires 0 < k <= n <= 256")))
           (ErrConfig (FailedFEC "requires 0 < k <= n <= 256")));
    vm_compute; reflexivity.
Defined.



(** ** Where the root key is written *)

(** C6 as stated fails: the passphrase step of the setup command leaves the
    passphrase in the key file, and the key loader then returns exactly
    these bytes as the root key. *)
Lemma cmdSetup_persists_passphrase :
  exists w',
    cmdSetup_passphrase passphrase passphrase "/cfg/.enc.key" world_setup
    = (Go.Returned None, w')
    /\ fs w' !! "/cfg/.enc.key"%string = Some (File 256 passphrase)
    /\ fst (keyFilepath_Key "/cfg/.enc.key" w')
       = Go.Returned (key_of_read passphrase, None).
Proof.
  eexists. split; [vm_compute; reflexivity|]. split; vm_compute; reflexivity.
Qed.

(** C6 (amended): the library core never writes the root key:
    keyFilepath.Key and Config.GetMetainfo leave the file tree as it is.
    The setup command does persist it: when its passphrase step succeeds,
    either the passphrase is empty and nothing is written, or the key file
    did not exist and now holds exactly the passphrase with mode 0400. *)
Theorem root_key_written_only_by_setup :
  (forall kfp w, fs (snd (keyFilepath_Key kfp w)) = fs w)
  /\ (forall env c identity w, fs (snd (GetMetainfo env c identity w)) = fs w)
  /\ (forall encKey repeatedEncKey path w w',
        cmdSetup_passphrase encKey repeatedEncKey path w = (Go.Returned None, w') ->
        (encKey = [] /\ fs w' = fs w)
        \/ (encKey <> [] /\ fs w !! path = None
            /\ fs w' = <[path := File 256 encKey]> (fs w))).
Proof.
  split; [|split].
  - intros kfp w. destruct (keyFilepath_Key_world kfp w) as [r Hr]. rewrite Hr. reflexivity.
  - intros env c identity w. rewrite GetMetainfo_eq.
    destruct (tlsopts_NewOptions env identity (TLS c)); [reflexivity|].
    destruct (String.eqb _ _); [reflexivity|]. cbv zeta.
    destruct (metainfo_dial env _ _); [reflexivity|].
    destruct (NewFEC _ _); [reflexivity|].
    destruct (NewRedundancyStrategy _ _ _); [reflexivity|].
    destruct (encryption_CalcEncryptedSize env _ _); [reflexivity|].
    destruct (_ =? 0); [reflexivity|].
    destruct (negb _); [reflexivity|].
    destruct (keyFilepath_Key_world (KeyFilepath (Enc c))
                (log (EvDial (SatelliteAddr (Client c)) (APIKey (Client c))) w)) as [[k e] Hr].
    rewrite Hr. destruct e; [reflexivity|].
    destruct (streams_NewStreamStore _ _ _ _ _ _); reflexivity.
  - intros encKey repeatedEncKey path w w'. rewrite cmdSetup_passphrase_eq.
    destruct (negb _); [discriminate|].
    destruct (Nat.eqb _ _) eqn:Hl.
    + intros H. left. apply Nat.eqb_eq in Hl. split.
      * destruct encKey; [reflexivity|discriminate].
      * destruct (fault w SysPrint); [discriminate|]. inversion H. reflexivity.
    + intros H. right. apply Nat.eqb_neq in Hl. split.
      * intros ->. apply Hl. reflexivity.
      * destruct (SaveEncryptionKey_success _ _ _ _ H) as (Hn & _ & Hf). auto.
Qed.

(** The setup of the configuration directory stores the passphrase. *)
Lemma root_key_written_only_by_setup_witness :
  exists w',
    cmdSetup_passphrase passphrase passphrase "/cfg/.enc.key" world_setup
    = (Go.Returned None, w')
    /\ ((passphrase = [] /\ fs w' = fs world_setup)
        \/ (passphrase <> [] /\ fs world_setup !! "/cfg/.enc.key"%string = None
            /\ fs w' = <["/cfg/.enc.key"%string := File 256 passphrase]> (fs world_setup))).
Proof.
  eexists. split; [vm_compute; reflexivity|].
  apply (proj2 (proj2 root_key_written_only_by_setup) passphrase passphrase).
  vm_compute. reflexivity.
Defined.

(** ** The configured schemes *)

(** C7 as stated fails: a minimum threshold of 65540 yields 4 required
    shares. *)
Lemma GetRedundancyScheme_truncates :
  RequiredShares (GetRedundancyScheme cfg_wide) = 4
  /\ MinThreshold (RS cfg_wide) = 65540
  /\ RequiredShares (GetRedundancyScheme cfg_wide) <> MinThreshold (RS cfg_wide).
Proof. split; [reflexivity|]. split; [reflexivity|]. vm_compute. discriminate. Qed.

(** C7 (amended): GetRedundancyScheme returns the ReedSolomon algorithm and
    the four thresholds converted to int16; for every Config whose
    thresholds fit sixteen bits RequiredShares, RepairShares, OptimalShares
    and TotalShares equal MinThreshold, RepairThreshold, SuccessThreshold
    and MaxThreshold.  GetEncryptionScheme returns storj.Cipher(DataType)
    and the block size converted to int32, which is the configured block
    size when that fits thirty-two bits. *)
Theorem GetRedundancyScheme_fields (env : Env) (c : Config) :
  Algorithm (GetRedundancyScheme c) = ReedSolomon
  /\ RequiredShares (GetRedundancyScheme c) = GoInt.int16 (MinThreshold (RS c))
  /\ RepairShares (GetRedundancyScheme c) = GoInt.int16 (RepairThreshold (RS c))
  /\ OptimalShares (GetRedundancyScheme c) = GoInt.int16 (SuccessThreshold (RS c))
  /\ TotalShares (GetRedundancyScheme c) = GoInt.int16 (MaxThreshold (RS c))
  /\ (GoInt.in_int16 (MinThreshold (RS c)) -> GoInt.in_int16 (RepairThreshold (RS c)) ->
      GoInt.in_int16 (SuccessThreshold (RS c)) -> GoInt.in_int16 (MaxThreshold (RS c)) ->
      RequiredShares (GetRedundancyScheme c) = MinThreshold (RS c)
      /\ RepairShares (GetRedundancyScheme c) = RepairThreshold (RS c)
      /\ OptimalShares (GetRedundancyScheme c) = SuccessThreshold (RS c)
      /\ TotalShares (GetRedundancyScheme c) = MaxThreshold (RS c))
  /\ SchemeCipher (GetEncryptionScheme env c) = storj_Cipher env (DataType (Enc c))
  /\ SchemeBlockSize (GetEncryptionScheme env c) = GoInt.int32 (BlockSize (Enc c))
  /\ (GoInt.in_int32 (BlockSize (Enc c)) ->
      SchemeBlockSize (GetEncryptionScheme env c) = BlockSize (Enc c)).
Proof.
  repeat (split; [reflexivity|]).
  split; [|repeat (split; [reflexivity|])].
  - intros H1 H2 H3 H4. cbn. rewrite !int16_small by assumption. auto.
  - intros H. cbn. apply int32_small. assumption.
Qed.

(** The development defaults come back as they are. *)
Lemma GetRedundancyScheme_fields_witness :
  RequiredShares (GetRedundancyScheme cfg_dev) = 4
  /\ RepairShares (GetRedundancyScheme cfg_dev) = 6
  /\ OptimalShares (GetRedundancyScheme cfg_dev) = 8
  /\ TotalShares (GetRedundancyScheme cfg_dev) = 10.
Proof.
  apply (GetRedundancyScheme_fields env_ok cfg_dev); unfold GoInt.in_int16; simpl; lia.
Defined.

(** ** The session placeholders *)

(** C5: for every session, every input and every state, each of
    NewPartialUpload, ListPartialUploads, PutPartialUpload,
    FinishPartialUpload and AbortPartialUpload panics with "TODO" and leaves
    the state as it was. *)
Theorem partial_uploads_are_placeholders (St : Type) (s : LibUplink.Session)
  (bucket uploadID : string) (st : St) :
  LibUplink.NewPartialUpload St s bucket st = (Go.Panics "TODO", st)
  /\ LibUplink.ListPartialUploads St s st = (Go.Panics "TODO", st)
  /\ LibUplink.PutPartialUpload St s st = (Go.Panics "TODO", st)
  /\ LibUplink.FinishPartialUpload St s st = (Go.Panics "TODO", st)
  /\ LibUplink.AbortPartialUpload St s bucket uploadID st = (Go.Panics "TODO", st).
Proof. repeat split. Qed.

(** ** Bucket operations on the empty name *)

Section EmptyBucketName.
Import Kvmetainfo.
Variable EncryptionParameters : Type.
Variable zeroEncryptionParameters : EncryptionParameters.
Variable ToEncryptionScheme : EncryptionParameters -> EncryptionScheme.
Variable ToEncryptionParameters : EncryptionScheme -> EncryptionParameters.

Local Abbreviation CreateBucket :=
  (Kvmetainfo.CreateBucket EncryptionParameters zeroEncryptionParameters
     ToEncryptionScheme ToEncryptionParameters).
Local Abbreviation GetBucket :=
  (Kvmetainfo.GetBucket EncryptionParameters zeroEncryptionParameters ToEncryptionParameters).
Local Abbreviation zeroBucket :=
  (Kvmetainfo.zeroBucket EncryptionParameters zeroEncryptionParameters).

(** C10: for the empty bucket name CreateBucket, GetBucket and DeleteBucket
    finish at once with ErrNoBucket, without asking the bucket store
    anything: run against any store, they leave its state as it was and
    perform no store operation; CreateBucket and GetBucket return the empty
    storj.Bucket besides. *)
Theorem empty_bucket_name_is_rejected (info : option (Bucket EncryptionParameters)) :
  CreateBucket "" info = Done (zeroBucket, Some (ErrNoBucket ""))
  /\ GetBucket "" = Done (zeroBucket, Some (ErrNoBucket ""))
  /\ DeleteBucket "" = Done (Some (ErrNoBucket ""))
  /\ (forall (St : Type) (h : forall X, StoreOp X -> St -> X * St) (s : St),
       interp h (CreateBucket "" info) s = ((zeroBucket, Some (ErrNoBucket "")), s)
       /\ interp h (GetBucket "") s = ((zeroBucket, Some (ErrNoBucket "")), s)
       /\ interp h (DeleteBucket "") s = (Some (ErrNoBucket ""), s)
       /\ asked h (CreateBucket "" info) s = 0%nat
       /\ asked h (GetBucket "") s = 0%nat
       /\ asked h (DeleteBucket "") s = 0%nat).
Proof. repeat split. Qed.

(** Any other name does reach the store, once. *)
Lemma named_bucket_asks_store (name : string) (info : option (Bucket EncryptionParameters))
  (St : Type) (h : forall X, StoreOp X -> St -> X * St) (s : St) :
  name <> ""%string ->
  asked h (CreateBucket name info) s = 1%nat
  /\ asked h (GetBucket name) s = 1%nat
  /\ asked h (DeleteBucket name) s = 1%nat.
Proof.
  intros Hne. apply String.eqb_neq in Hne.
  unfold Kvmetainfo.CreateBucket, Kvmetainfo.GetBucket, Kvmetainfo.DeleteBucket.
  rewrite Hne. cbn [asked].
  repeat split.
  - destruct (h _ _ s) as [[e|m] s']; reflexivity.
  - destruct (h _ _ s) as [[e|m] s']; reflexivity.
  - destruct (h _ _ s) as [r s']; reflexivity.
Qed.

End EmptyBucketName.

(** ** The field of bytes *)

Section GF256Facts.
Import GF256.
Local Open Scope N_scope.

Lemma below256_all (P : N -> bool) :
  forallb P below256 = true -> forall n, (n < 256)%N -> P n = true.
Proof.
  intros H n Hn. rewrite forallb_forall in H. apply H.
  unfold below256. apply in_map_iff. exists (N.to_nat n). split; [lia|].
  apply in_seq. lia.
Qed.

(** Multiplication is additive in both arguments, on all of [N]. *)
Lemma xtime_lxor a b : xtime (N.lxor a b) = N.lxor (xtime a) (xtime b).
Proof.
  unfold xtime. rewrite N.shiftl_lxor, N.lxor_spec.
  destruct (N.testbit a 7), (N.testbit b 7); cbn [xorb];
    rewrite ?N.lxor_0_r.
  - rewrite N.lxor_assoc. rewrite <- (N.lxor_assoc modulus).
    rewrite (N.lxor_comm modulus (N.shiftl b 1)). rewrite N.lxor_assoc.
    rewrite N.lxor_nilpotent, N.lxor_0_r. reflexivity.
  - rewrite !N.lxor_assoc. f_equal. apply N.lxor_comm.
  - rewrite N.lxor_assoc. reflexivity.
  - reflexivity.
Qed.

Lemma lxor_swap a b c d :
  N.lxor (N.lxor a b) (N.lxor c d) = N.lxor (N.lxor a c) (N.lxor b d).
Proof.
  rewrite !N.lxor_assoc. f_equal. rewrite <- !N.lxor_assoc. f_equal. apply N.lxor_comm.
Qed.

Lemma mul_bits_lxor_l n : forall a a' b,
  mul_bits n (N.lxor a a') b = N.lxor (mul_bits n a b) (mul_bits n a' b).
Proof.
  induction n as [|n IH]; intros a a' b; cbn [mul_bits].
  - reflexivity.
  - rewrite xtime_lxor, IH. rewrite lxor_swap. f_equal.
    destruct (N.odd b); [reflexivity|]. reflexivity.
Qed.

Lemma mul_bits_lxor_r n : forall a b b',
  mul_bits n a (N.lxor b b') = N.lxor (mul_bits n a b) (mul_bits n a b').
Proof.
  induction n as [|n IH]; intros a b b'; cbn [mul_bits].
  - reflexivity.
  - rewrite !N.div2_spec, N.shiftr_lxor, <- !N.div2_spec, IH. rewrite lxor_swap. f_equal.
    rewrite <- !N.bit0_odd, N.lxor_spec.
    destruct (N.testbit b 0), (N.testbit b' 0); cbn [xorb];
      rewrite ?N.lxor_0_r, ?N.lxor_0_l, ?N.lxor_nilpotent; reflexivity.
Qed.

Lemma lxor_below a b : (a < 256 -> b < 256 -> N.lxor a b < 256)%N.
Proof.
  intros Ha Hb.
  destruct (N.eq_dec (N.lxor a b) 0) as [E|E]; [rewrite E; lia|].
  change 256%N with (2 ^ 8)%N. apply N.log2_lt_pow2; [lia|].
  eapply N.le_lt_trans; [apply N.log2_lxor|].
  apply N.max_lub_lt.
  - destruct (N.eq_dec a 0) as [->|Ha0]; [cbn; lia|]. apply N.log2_lt_pow2; [lia|exact Ha].
  - destruct (N.eq_dec b 0) as [->|Hb0]; [cbn; lia|]. apply N.log2_lt_pow2; [lia|exact Hb].
Qed.

Lemma xtime_below a : (a < 256 -> xtime a < 256)%N.
Proof.
  intros Ha. apply N.ltb_lt.
  apply (below256_all (fun a => xtime a <? 256)%N); [vm_compute; reflexivity|exact Ha].
Qed.

Lemma mul_bits_below n : forall a b, (a < 256 -> mul_bits n a b < 256)%N.
Proof.
  induction n as [|n IH]; intros a b Ha; cbn [mul_bits]; [lia|].
  apply lxor_below.
  - destruct (N.odd b); [exact Ha|lia].
  - apply IH, xtime_below, Ha.
Qed.

(** Additive maps are determined by their values on the powers of two. *)
Lemma bits_sum_eq a : (a < 256)%N -> bits_sum a = a.
Proof.
  intros Ha. apply N.eqb_eq.
  apply (below256_all (fun a => bits_sum a =? a)%N); [vm_compute; reflexivity|exact Ha].
Qed.

Lemma additive_0 f : additive f -> f 0%N = 0%N.
Proof.
  intros Hf. specialize (Hf 0%N 0%N). rewrite N.lxor_0_l in Hf.
  rewrite N.lxor_nilpotent in Hf. exact Hf.
Qed.

Lemma additive_fold f (l : list N) :
  additive f -> f (fold_right N.lxor 0%N l) = fold_right N.lxor 0%N (map f l).
Proof.
  intros Hf. induction l as [|x l IH]; cbn [fold_right map].
  - apply additive_0, Hf.
  - rewrite Hf, IH. reflexivity.
Qed.

Lemma additive_ext f g :
  additive f -> additive g ->
  (forall i, (i < 8)%nat -> f (2 ^ N.of_nat i)%N = g (2 ^ N.of_nat i)%N) ->
  forall a, (a < 256)%N -> f a = g a.
Proof.
  intros Hf Hg Hb a Ha. rewrite <- (bits_sum_eq a Ha). unfold bits_sum.
  rewrite !additive_fold by assumption. rewrite !map_map. f_equal.
  apply map_ext_in. intros i Hi. apply in_seq in Hi. unfold bit_part.
  destruct (N.testbit a (N.of_nat i)).
  - apply Hb. lia.
  - rewrite !additive_0 by assumption. reflexivity.
Qed.

Lemma nmul_additive_l b : additive (fun a => nmul a b).
Proof. intros x y. apply mul_bits_lxor_l. Qed.

Lemma nmul_additive_r a : additive (fun b => nmul a b).
Proof. intros x y. apply mul_bits_lxor_r. Qed.

Lemma below8_all (P : nat -> bool) :
  forallb P (seq 0 8) = true -> forall i, (i < 8)%nat -> P i = true.
Proof.
  intros H i Hi. rewrite forallb_forall in H. apply H. apply in_seq. lia.
Qed.

(** Commutativity and associativity follow from the 8 x 8 and 8 x 8 x 8
    products of powers of two. *)
Lemma nmul_comm a b : (a < 256 -> b < 256 -> nmul a b = nmul b a)%N.
Proof.
  intros Ha Hb. revert a Ha.
  apply additive_ext; [apply nmul_additive_l|apply nmul_additive_r|].
  intros i Hi. revert b Hb.
  apply additive_ext; [apply nmul_additive_r|apply nmul_additive_l|].
  intros j Hj.
  apply N.eqb_eq.
  apply (below8_all (fun j => nmul (pw i) (pw j) =? nmul (pw j) (pw i))%N); [|exact Hj].
  revert i Hi.
  apply (below8_all (fun i => forallb (fun j => nmul (pw i) (pw j) =? nmul (pw j) (pw i))%N (seq 0 8))).
  vm_compute. reflexivity.
Qed.

Lemma additive_compose f g : additive f -> additive g -> additive (fun x => f (g x)).
Proof. intros Hf Hg x y. rewrite Hg, Hf. reflexivity. Qed.

Lemma nmul_assoc a b c :
  (a < 256 -> b < 256 -> c < 256 -> nmul a (nmul b c) = nmul (nmul a b) c)%N.
Proof.
  intros Ha Hb Hc. revert a Ha.
  apply additive_ext.
  { intros x y. apply mul_bits_lxor_l. }
  { apply (additive_compose (fun t => nmul t c) (fun a => nmul a b));
      [apply nmul_additive_l|apply nmul_additive_l]. }
  intros i Hi. revert b Hb.
  apply additive_ext.
  { apply (additive_compose (fun t => nmul (2 ^ N.of_nat i) t) (fun b => nmul b c));
      [apply nmul_additive_r|apply nmul_additive_l]. }
  { apply (additive_compose (fun t => nmul t c) (fun b => nmul (2 ^ N.of_nat i) b));
      [apply nmul_additive_l|apply nmul_additive_r]. }
  intros j Hj. revert c Hc.
  apply additive_ext.
  { apply (additive_compose (fun t => nmul (2 ^ N.of_nat i) t) (fun c => nmul (2 ^ N.of_nat j) c));
      apply nmul_additive_r. }
  { apply nmul_additive_r. }
  intros k Hk.
  apply N.eqb_eq.
  apply (below8_all (fun k => nmul (pw i) (nmul (pw j) (pw k)) =? nmul (nmul (pw i) (pw j)) (pw k))%N);
    [|exact Hk].
  revert j Hj.
  apply (below8_all (fun j => forallb (fun k =>
           nmul (pw i) (nmul (pw j) (pw k)) =? nmul (nmul (pw i) (pw j)) (pw k))%N (seq 0 8))).
  revert i Hi.
  apply (below8_all (fun i => forallb (fun j => forallb (fun k =>
           nmul (pw i) (nmul (pw j) (pw k)) =? nmul (nmul (pw i) (pw j)) (pw k))%N (seq 0 8)) (seq 0 8))).
  vm_compute. reflexivity.
Qed.

Lemma nmul_1_l a : (a < 256)%N -> nmul 1 a = a.
Proof.
  intros Ha. apply N.eqb_eq.
  apply (below256_all (fun a => nmul 1 a =? a)%N); [vm_compute; reflexivity|exact Ha].
Qed.

(** The laws on bytes. *)
Lemma gf_to_N_below (x : byte) : Byte.to_N x < 256.
Proof. pose proof (Byte.to_N_bounded x). lia. Qed.

Lemma gf_of_to_N (x : byte) : GF256.of_N (Byte.to_N x) = x.
Proof. unfold GF256.of_N. rewrite Byte.of_to_N. reflexivity. Qed.

Lemma gf_to_of_N (n : N) : n < 256 -> Byte.to_N (GF256.of_N n) = n.
Proof.
  intros Hn. unfold GF256.of_N.
  pose proof (Byte.to_of_N_option_map n) as H.
  destruct (Byte.of_N n) as [b|] eqn:E.
  - apply Byte.to_of_N. exact E.
  - cbn in H. destruct (N.leb_spec n 255); [discriminate|lia].
Qed.

Lemma gf_byte_ext (x y : byte) : Byte.to_N x = Byte.to_N y -> x = y.
Proof. intros H. rewrite <- (gf_of_to_N x), <- (gf_of_to_N y), H. reflexivity. Qed.

Lemma gf_to_N_add x y : Byte.to_N (add x y) = N.lxor (Byte.to_N x) (Byte.to_N y).
Proof. apply gf_to_of_N, lxor_below; apply gf_to_N_below. Qed.

Lemma gf_to_N_mul x y : Byte.to_N (mul x y) = nmul (Byte.to_N x) (Byte.to_N y).
Proof. apply gf_to_of_N, mul_bits_below, gf_to_N_below. Qed.

Lemma gf_add_0_l x : add zero x = x.
Proof. apply gf_byte_ext. rewrite gf_to_N_add. apply N.lxor_0_l. Qed.

Lemma gf_add_comm x y : add x y = add y x.
Proof. apply gf_byte_ext. rewrite !gf_to_N_add. apply N.lxor_comm. Qed.

Lemma gf_add_assoc x y z : add x (add y z) = add (add x y) z.
Proof. apply gf_byte_ext. rewrite !gf_to_N_add. symmetry. apply N.lxor_assoc. Qed.

Lemma gf_add_opp x : add x (opp x) = zero.
Proof. apply gf_byte_ext. unfold opp. rewrite gf_to_N_add. apply N.lxor_nilpotent. Qed.

Lemma gf_mul_1_l x : mul one x = x.
Proof. apply gf_byte_ext. rewrite gf_to_N_mul. apply nmul_1_l, gf_to_N_below. Qed.

Lemma gf_mul_comm x y : mul x y = mul y x.
Proof. apply gf_byte_ext. rewrite !gf_to_N_mul. apply nmul_comm; apply gf_to_N_below. Qed.

Lemma gf_mul_assoc x y z : mul x (mul y z) = mul (mul x y) z.
Proof. apply gf_byte_ext. rewrite !gf_to_N_mul. apply nmul_assoc; apply gf_to_N_below. Qed.

Lemma gf_mul_add_distr_r x y z : mul (add x y) z = add (mul x z) (mul y z).
Proof.
  apply gf_byte_ext. rewrite gf_to_N_mul, !gf_to_N_add, !gf_to_N_mul. apply mul_bits_lxor_l.
Qed.

Lemma gf_inv_l x : x <> zero -> mul (inv x) x = one.
Proof.
  intros Hx. rewrite <- (gf_of_to_N x) in *.
  assert (H : (Byte.to_N x =? 0) || (Byte.to_N (mul (inv (GF256.of_N (Byte.to_N x)))
                                        (GF256.of_N (Byte.to_N x))) =? 1) = true).
  { apply (below256_all (fun n => (n =? 0) || (Byte.to_N (mul (inv (GF256.of_N n)) (GF256.of_N n)) =? 1))).
    - vm_compute. reflexivity.
    - apply gf_to_N_below. }
  apply orb_true_iff in H. destruct H as [H|H].
  - apply N.eqb_eq in H. exfalso. apply Hx. rewrite H. reflexivity.
  - apply N.eqb_eq in H. apply gf_byte_ext. exact H.
Qed.

Lemma GF256_ring : ring_theory zero one add mul sub opp eq.
Proof.
  constructor.
  - exact gf_add_0_l.
  - exact gf_add_comm.
  - exact gf_add_assoc.
  - exact gf_mul_1_l.
  - exact gf_mul_comm.
  - exact gf_mul_assoc.
  - exact gf_mul_add_distr_r.
  - reflexivity.
  - exact gf_add_opp.
Qed.

Lemma GF256_field : field_theory zero one add mul sub opp div inv eq.
Proof.
  constructor.
  - exact GF256_ring.
  - discriminate.
  - reflexivity.
  - exact gf_inv_l.
Qed.

End GF256Facts.

(** ** Polynomials over a field *)

Section PolyFacts.
Import Poly.
Variable F : Type.
Variables (zero one : F) (add mul sub : F -> F -> F) (opp : F -> F)
  (div : F -> F -> F) (inv : F -> F).
Hypothesis Fth : field_theory zero one add mul sub opp div inv eq.

Add Field Ffield : Fth.

Local Notation "0" := zero.
Local Notation "1" := one.
Local Infix "+" := add.
Local Infix "*" := mul.
Local Infix "-" := sub.
Local Infix "/" := div.

Local Abbreviation peval := (Poly.peval F zero add mul).
Local Abbreviation coef := (Poly.coef F zero).
Local Abbreviation padd := (Poly.padd F add).
Local Abbreviation pscale := (Poly.pscale F mul).
Local Abbreviation shift_sub := (Poly.shift_sub F mul sub).
Local Abbreviation mul_linear := (Poly.mul_linear F zero mul sub).
Local Abbreviation vanish := (Poly.vanish F zero one mul sub).
Local Abbreviation interpolate := (Poly.interpolate F zero one add mul sub div).
Local Abbreviation normalize := (Poly.normalize F zero).
Local Abbreviation div_linear := (Poly.div_linear F zero add mul).

Lemma field_mul_eq_0 (a b : F) : a * b = 0 -> a <> 0 -> b = 0.
Proof.
  intros H Ha.
  assert (E : b = inv a * (a * b)).
  { rewrite (Rmul_assoc (F_R Fth)), (Finv_l Fth a Ha). ring. }
  rewrite E, H. ring.
Qed.

Lemma field_sub_eq_0 (a b : F) : a - b = 0 -> a = b.
Proof. intros H. assert (E : a = (a - b) + b) by ring. rewrite E, H. ring. Qed.

Lemma field_sub_neq_0 (a b : F) : a <> b -> a - b <> 0.
Proof. intros H E. apply H, field_sub_eq_0, E. Qed.

Lemma peval_cons c p x : peval (c :: p) x = c + x * peval p x.
Proof. reflexivity. Qed.

Lemma peval_padd p : forall q x, peval (padd p q) x = peval p x + peval q x.
Proof.
  induction p as [|a p IH]; intros [|b q] x; cbn [Poly.padd].
  - cbn. ring.
  - rewrite peval_cons. cbn. ring.
  - rewrite peval_cons. cbn. ring.
  - rewrite !peval_cons, IH. ring.
Qed.

Lemma peval_pscale c p x : peval (pscale c p) x = c * peval p x.
Proof.
  induction p as [|a p IH]; cbn [Poly.pscale map].
  - cbn. ring.
  - rewrite !peval_cons. unfold Poly.pscale in IH. rewrite IH. ring.
Qed.

Lemma peval_shift_sub a p : forall prev x,
  peval (shift_sub a prev p) x = prev + (x - a) * peval p x.
Proof.
  induction p as [|c p IH]; intros prev x; cbn [Poly.shift_sub].
  - cbn. ring.
  - rewrite !peval_cons, IH. ring.
Qed.

Lemma peval_mul_linear a p x : peval (mul_linear a p) x = (x - a) * peval p x.
Proof. unfold Poly.mul_linear. rewrite peval_shift_sub. ring. Qed.

Lemma length_shift_sub a p : forall prev, length (shift_sub a prev p) = S (length p).
Proof. induction p as [|c p IH]; intros prev; cbn; [reflexivity|]. rewrite IH. reflexivity. Qed.

Lemma length_vanish xs : length (vanish xs) = S (length xs).
Proof.
  unfold Poly.vanish. induction xs as [|x xs IH]; cbn [fold_right]; [reflexivity|].
  unfold Poly.mul_linear at 1. rewrite length_shift_sub, IH. reflexivity.
Qed.

Lemma peval_vanish_root xs x : In x xs -> peval (vanish xs) x = 0.
Proof.
  unfold Poly.vanish.
  induction xs as [|a xs IH]; intros Hin; [destruct Hin|].
  cbn [fold_right]. rewrite peval_mul_linear.
  destruct Hin as [->|Hin].
  - ring.
  - rewrite (IH Hin). ring.
Qed.

Lemma peval_vanish_nonzero xs x : ~ In x xs -> peval (vanish xs) x <> 0.
Proof.
  unfold Poly.vanish.
  induction xs as [|a xs IH]; intros Hin.
  - cbn. intros E. apply (F_1_neq_0 Fth). rewrite <- E. ring.
  - cbn [fold_right]. rewrite peval_mul_linear. intros E.
    apply (IH (fun H => Hin (or_intror H))).
    apply (field_mul_eq_0 (x - a)); [exact E|].
    apply field_sub_neq_0. intros ->. apply Hin. left. reflexivity.
Qed.

Lemma length_padd p : forall q, length (padd p q) = Nat.max (length p) (length q).
Proof.
  induction p as [|a p IH]; intros [|b q]; cbn [Poly.padd length]; try reflexivity.
  rewrite IH. reflexivity.
Qed.

Lemma length_interpolate pts : (length (interpolate pts) <= length pts)%nat.
Proof.
  induction pts as [|[x y] rest IH]; cbn [Poly.interpolate length]; [lia|].
  rewrite length_padd. unfold Poly.pscale. rewrite length_map, length_vanish, length_map.
  lia.
Qed.

Lemma peval_interpolate pts :
  NoDup (map fst pts) ->
  forall x y, In (x, y) pts -> peval (interpolate pts) x = y.
Proof.
  induction pts as [|[x0 y0] rest IH]; intros Hnd x y Hin; [destruct Hin|].
  cbn [map fst] in Hnd. apply NoDup_cons in Hnd. destruct Hnd as [Hx0 Hnd].
  cbn [Poly.interpolate]. rewrite peval_padd, peval_pscale.
  destruct Hin as [E|Hin].
  - inversion E; subst x0 y0. clear E.
    pose proof (peval_vanish_nonzero (map fst rest) x) as Hm.
    assert (Hx0' : ~ In x (map fst rest)).
    { intros H. apply Hx0. apply list_elem_of_In. exact H. }
    specialize (Hm Hx0'). field. exact Hm.
  - rewrite (IH Hnd x y Hin).
    rewrite (peval_vanish_root (map fst rest) x).
    + ring.
    + apply in_map_iff. exists (x, y). split; [reflexivity|exact Hin].
Qed.

Lemma div_linear_length a p : length (fst (div_linear a p)) = Nat.pred (length p).
Proof.
  induction p as [|c p IH]; [reflexivity|].
  cbn [Poly.div_linear]. destruct p as [|c' p']; [reflexivity|].
  destruct (div_linear a (c' :: p')) as [q' r'] eqn:E. cbn [fst length] in *.
  rewrite IH. reflexivity.
Qed.

Lemma div_linear_eval a p x :
  peval p x = (x - a) * peval (fst (div_linear a p)) x + snd (div_linear a p).
Proof.
  induction p as [|c p IH]; [cbn; ring|].
  cbn [Poly.div_linear]. destruct p as [|c' p'].
  - cbn. ring.
  - destruct (div_linear a (c' :: p')) as [q' r'] eqn:E. cbn [fst snd] in *.
    rewrite peval_cons, IH, peval_cons. ring.
Qed.

Lemma div_linear_zero a p :
  Forall (eq 0) (fst (div_linear a p)) -> snd (div_linear a p) = 0 -> Forall (eq 0) p.
Proof.
  induction p as [|c p IH]; [constructor|].
  cbn [Poly.div_linear]. destruct p as [|c' p'].
  - cbn. intros _ ->. repeat constructor.
  - destruct (div_linear a (c' :: p')) as [q' r'] eqn:E. cbn [fst snd] in *.
    intros Hq Hr. apply Forall_cons_iff in Hq. destruct Hq as [Hr' Hq'].
    subst r'. constructor.
    + rewrite <- Hr. ring.
    + apply IH; [exact Hq'|reflexivity].
Qed.

(** A polynomial with as many distinct roots as coefficients is zero. *)
Lemma roots_zero (roots : list F) : forall p,
  NoDup roots -> (length p <= length roots)%nat ->
  (forall r, In r roots -> peval p r = 0) ->
  Forall (eq 0) p.
Proof.
  induction roots as [|a roots IH]; intros p Hnd Hlen Hroots.
  - destruct p; [constructor|cbn in Hlen; lia].
  - apply NoDup_cons in Hnd. destruct Hnd as [Ha Hnd].
    apply (div_linear_zero a).
    + apply IH; [exact Hnd| |].
      * rewrite div_linear_length. cbn [length] in Hlen. lia.
      * intros r Hr.
        assert (Hra : r <> a).
        { intros ->. apply Ha. apply list_elem_of_In. exact Hr. }
        pose proof (div_linear_eval a p r) as E.
        pose proof (div_linear_eval a p a) as Ea.
        rewrite (Hroots a (or_introl eq_refl)) in Ea.
        rewrite (Hroots r (or_intror Hr)) in E.
        assert (Hs : snd (div_linear a p) = 0).
        { transitivity ((a - a) * peval (fst (div_linear a p)) a + snd (div_linear a p));
            [ring|symmetry; exact Ea]. }
        rewrite Hs in E.
        apply (field_mul_eq_0 (r - a)); [|apply field_sub_neq_0, Hra].
        transitivity ((r - a) * peval (fst (div_linear a p)) r + 0);
          [ring|symmetry; exact E].
    + pose proof (div_linear_eval a p a) as Ea.
      rewrite (Hroots a (or_introl eq_refl)) in Ea.
      transitivity ((a - a) * peval (fst (div_linear a p)) a + snd (div_linear a p));
        [ring|symmetry; exact Ea].
Qed.

Lemma coef_padd p : forall q i, coef (padd p q) i = coef p i + coef q i.
Proof.
  unfold Poly.coef.
  induction p as [|a p IH]; intros [|b q] [|i]; cbn [Poly.padd nth]; try ring.
  apply IH.
Qed.

Lemma coef_pscale c p i : coef (pscale c p) i = c * coef p i.
Proof.
  unfold Poly.coef, Poly.pscale. revert i.
  induction p as [|a p IH]; intros [|i]; cbn [map nth]; try ring.
  apply IH.
Qed.

Lemma coef_zero p i : Forall (eq 0) p -> coef p i = 0.
Proof.
  unfold Poly.coef. intros H. revert i.
  induction H as [|a p Ha Hp IH]; intros [|i]; cbn [nth]; auto.
Qed.

(** Two polynomials with at most [k] coefficients that agree on [k] distinct
    points have the same coefficients. *)
Lemma agree_coef (xs : list F) (p q : list F) :
  NoDup xs -> (length p <= length xs)%nat -> (length q <= length xs)%nat ->
  (forall x, In x xs -> peval p x = peval q x) ->
  forall i, coef p i = coef q i.
Proof.
  intros Hnd Hp Hq Hagree i.
  assert (Hz : Forall (eq 0) (padd p (pscale (opp 1) q))).
  { apply (roots_zero xs); [exact Hnd| |].
    - rewrite length_padd. unfold Poly.pscale. rewrite length_map. lia.
    - intros r Hr. rewrite peval_padd, peval_pscale, (Hagree r Hr). ring. }
  pose proof (coef_zero _ i Hz) as E.
  rewrite coef_padd, coef_pscale in E.
  assert (E' : coef p i = (coef p i + opp 1 * coef q i) + coef q i) by ring.
  rewrite E' , E. ring.
Qed.

Lemma normalize_id k p : length p = k -> normalize k p = p.
Proof.
  intros <-. unfold Poly.normalize, Poly.coef.
  apply nth_ext with (d := 0) (d' := 0).
  - rewrite length_map, length_seq. reflexivity.
  - intros n Hn. rewrite length_map, length_seq in Hn.
    rewrite (nth_indep _ 0 (nth 0 p 0)) by (rewrite length_map, length_seq; exact Hn).
    rewrite (map_nth (fun i => nth i p 0) (seq 0 (length p)) 0%nat n).
    rewrite seq_nth by exact Hn. reflexivity.
Qed.

(** Any [k] evaluations at distinct points determine the [k] coefficients. *)
Lemma interpolate_evaluations (blk : list F) (xs : list F) :
  NoDup xs -> length xs = length blk ->
  normalize (length blk) (interpolate (map (fun x => (x, peval blk x)) xs)) = blk.
Proof.
  intros Hnd Hlen.
  transitivity (normalize (length blk) blk); [|apply normalize_id; reflexivity].
  unfold Poly.normalize. apply map_ext. intros i.
  apply (agree_coef xs); [exact Hnd| | |].
  - etransitivity; [apply length_interpolate|]. rewrite length_map. lia.
  - lia.
  - intros x Hx. apply peval_interpolate.
    + rewrite map_map. cbn [fst]. rewrite map_id. exact Hnd.
    + apply in_map_iff. exists x. split; [reflexivity|exact Hx].
Qed.

End PolyFacts.

(** ** The erasure round trip *)

Section RoundTrip.
Import Erasure CodingExamples.
Local Open Scope nat_scope.

Lemma nth_map_seq {A : Type} (f : nat -> A) (n i : nat) (d : A) :
  i < n -> nth i (map f (seq 0 n)) d = f i.
Proof.
  intros Hi.
  rewrite (nth_indep _ d (f 0)) by (rewrite length_map, length_seq; exact Hi).
  rewrite map_nth, seq_nth by exact Hi. reflexivity.
Qed.

Lemma map_nth_seq {A : Type} (l : list A) (d : A) :
  map (fun t => nth t l d) (seq 0 (length l)) = l.
Proof.
  apply nth_ext with (d := d) (d' := d).
  - rewrite length_map, length_seq. reflexivity.
  - intros n Hn. rewrite length_map, length_seq in Hn.
    rewrite (nth_map_seq (fun t => nth t l d)) by exact Hn. reflexivity.
Qed.

Lemma ceil_div_le (a b : nat) : 0 < b -> a <= ceil_div a b * b.
Proof.
  intros Hb. unfold ceil_div.
  pose proof (Nat.div_mod_eq (a + b - 1) b) as E.
  pose proof (Nat.mod_upper_bound (a + b - 1) b) as Hr.
  nia.
Qed.

Lemma round_up_le (a b : nat) : 0 < b -> a <= round_up a b.
Proof. apply ceil_div_le. Qed.

Lemma length_pad (total : nat) (p : list byte) :
  length p <= total -> length (pad total p) = total.
Proof. intros H. unfold pad. rewrite length_app, repeat_length. lia. Qed.

Lemma firstn_pad (total : nat) (p : list byte) : firstn (length p) (pad total p) = p.
Proof.
  unfold pad. rewrite firstn_app, Nat.sub_diag, firstn_all. cbn [firstn].
  apply app_nil_r.
Qed.

Lemma length_blocks (k c : nat) : forall l, length (blocks k c l) = c.
Proof. induction c as [|c IH]; intros l; cbn [blocks length]; [reflexivity|]. rewrite IH. reflexivity. Qed.

Lemma blocks_each (k c : nat) : forall l,
  length l = k * c -> Forall (fun b => length b = k) (blocks k c l).
Proof.
  induction c as [|c IH]; intros l Hl; cbn [blocks]; constructor.
  - rewrite length_firstn. nia.
  - apply IH. rewrite length_skipn. nia.
Qed.

Lemma concat_blocks (k c : nat) : forall l,
  length l = k * c -> concat (blocks k c l) = l.
Proof.
  induction c as [|c IH]; intros l Hl; cbn [blocks concat].
  - destruct l; [reflexivity|]. cbn [length] in Hl. lia.
  - rewrite IH by (rewrite length_skipn; nia). apply firstn_skipn.
Qed.

Lemma point_inj (i j : nat) : i < 256 -> j < 256 -> point i = point j -> i = j.
Proof.
  intros Hi Hj E. unfold point in E.
  apply (f_equal Byte.to_N) in E.
  rewrite !gf_to_of_N in E by lia. lia.
Qed.

Lemma NoDup_map_point (l : list nat) :
  NoDup l -> Forall (fun i => i < 256) l -> NoDup (map point l).
Proof.
  induction l as [|i l IH]; intros Hnd Hall; cbn [map]; [constructor|].
  apply NoDup_cons in Hnd. destruct Hnd as [Hi Hnd].
  apply Forall_cons_iff in Hall. destruct Hall as [Hi256 Hall].
  apply NoDup_cons. split; [|apply IH; assumption].
  intros Hin. apply list_elem_of_In, in_map_iff in Hin.
  destruct Hin as (j & Hj & Hjl). apply Hi.
  rewrite Forall_forall in Hall.
  assert (j = i) as ->.
  { apply point_inj; [apply Hall, list_elem_of_In, Hjl|exact Hi256|exact Hj]. }
  apply list_elem_of_In, Hjl.
Qed.

(** What the two constructors guarantee. *)
Lemma strategy_valid (k n m o ess : Z) (fc : EEStream.FEC) (rs : EEStream.RedundancyStrategy) :
  EEStream.NewFEC k n = inr fc ->
  EEStream.NewRedundancyStrategy (EEStream.NewRSScheme fc ess) m o = inr rs ->
  requiredCount rs = Z.to_nat k /\ totalCount rs = Z.to_nat n /\ shareSize rs = Z.to_nat ess
  /\ (0 < k <= n)%Z /\ (n <= 256)%Z /\ (0 < ess)%Z.
Proof.
  unfold EEStream.NewFEC, EEStream.NewRedundancyStrategy, EEStream.NewRSScheme.
  destruct (_ && _ && _) eqn:H1; [|discriminate]. intros Hfc. inversion Hfc; subst fc.
  cbn [EEStream.rs_fc EEStream.fec_k EEStream.fec_n EEStream.erasureShareSize].
  destruct (_ && _ && _ && _) eqn:H2; [|discriminate]. intros Hrs. inversion Hrs; subst rs.
  repeat (apply andb_prop in H1; destruct H1 as [H1 ?]).
  repeat (apply andb_prop in H2; destruct H2 as [H2 ?]).
  unfold EEStream.shareCeiling in *.
  repeat split; try reflexivity; lia.
Qed.

(** The plaintext fits the [k] shares of its stripe size. *)
Lemma stripe_fits (rs : EEStream.RedundancyStrategy) (len : nat) :
  0 < requiredCount rs -> 0 < shareSize rs ->
  len <= requiredCount rs * stripeSize rs len.
Proof.
  intros Hk Hs. unfold stripeSize.
  pose proof (ceil_div_le len (requiredCount rs) Hk).
  pose proof (round_up_le (ceil_div len (requiredCount rs)) (shareSize rs) Hs).
  nia.
Qed.

Lemma surviving_Encode (rs : EEStream.RedundancyStrategy) (plaintext : list byte)
  (numbers : list nat) :
  Forall (fun i => i < totalCount rs) numbers ->
  surviving (Encode rs plaintext) numbers = map (share_of rs plaintext) numbers.
Proof.
  intros Hall. unfold surviving. apply map_ext_in. intros i Hi.
  rewrite Forall_forall in Hall. unfold Encode. cbv zeta.
  rewrite nth_map_seq by (apply Hall, list_elem_of_In, Hi). reflexivity.
Qed.

Lemma length_plain_blocks (rs : EEStream.RedundancyStrategy) (plaintext : list byte) :
  length (plain_blocks rs plaintext) = stripeSize rs (length plaintext).
Proof. apply length_blocks. Qed.

(** Interpolating byte [t] of [k] distinct shares gives block [t] back. *)
Lemma decode_block (rs : EEStream.RedundancyStrategy) (plaintext : list byte)
  (numbers : list nat) (t : nat) :
  0 < requiredCount rs -> 0 < shareSize rs ->
  NoDup numbers -> length numbers = requiredCount rs ->
  Forall (fun i => i < 256) numbers ->
  t < stripeSize rs (length plaintext) ->
  gf_normalize (requiredCount rs)
    (gf_interpolate
       (map (fun s => (point (Number s), nth t (Data s) x00))
            (map (share_of rs plaintext) numbers)))
  = nth t (plain_blocks rs plaintext) [].
Proof.
  intros Hk Hs Hnd Hlen H256 Ht.
  set (blk := nth t (plain_blocks rs plaintext) []).
  assert (Hblk : length blk = requiredCount rs).
  { pose proof (blocks_each (requiredCount rs) (stripeSize rs (length plaintext))
                  (pad (requiredCount rs * stripeSize rs (length plaintext)) plaintext)) as Hall.
    rewrite Forall_forall in Hall. apply Hall.
    - apply length_pad, stripe_fits; assumption.
    - apply list_elem_of_In, nth_In. rewrite length_blocks. exact Ht. }
  rewrite map_map. cbn [Number Data share_of].
  assert (E : map (fun i => (point i, nth t (map (fun b => gf_peval b (point i))
                                                (plain_blocks rs plaintext)) x00)) numbers
              = map (fun x => (x, gf_peval blk x)) (map point numbers)).
  { rewrite map_map. apply map_ext. intros i. f_equal.
    rewrite (nth_indep _ x00 (gf_peval [] (point i)))
      by (rewrite length_map, length_plain_blocks; exact Ht).
    apply (map_nth (fun b => gf_peval b (point i))). }
  rewrite E. rewrite <- Hblk.
  apply (interpolate_evaluations byte GF256.zero GF256.one GF256.add GF256.mul GF256.sub
           GF256.opp GF256.div GF256.inv GF256_field).
  - apply NoDup_map_point; assumption.
  - rewrite length_map. lia.
Qed.

(** C1: for every plaintext and every redundancy strategy that the
    constructors accept (0 < k <= m <= o <= n, at most 256 shares, a
    positive share size), decoding the shares of any k distinct piece
    numbers out of the n shares of Encode, in any order, returns exactly the
    plaintext. *)
Theorem decode_encode_any_k (k n m o ess : Z) (fc : EEStream.FEC)
  (rs : EEStream.RedundancyStrategy) (plaintext : list byte) (numbers : list nat) :
  EEStream.NewFEC k n = inr fc ->
  EEStream.NewRedundancyStrategy (EEStream.NewRSScheme fc ess) m o = inr rs ->
  NoDup numbers ->
  length numbers = Z.to_nat k ->
  Forall (fun i => i < Z.to_nat n) numbers ->
  Decode rs (length plaintext) (surviving (Encode rs plaintext) numbers) = inr plaintext.
Proof.
  intros Hfc Hrs Hnd Hlen Hall.
  destruct (strategy_valid k n m o ess fc rs Hfc Hrs) as (Ek & En & Es & Hkn & Hn & Hess).
  assert (Hk : 0 < requiredCount rs) by lia.
  assert (Hs : 0 < shareSize rs) by lia.
  rewrite <- Ek in Hlen. rewrite <- En in Hall.
  assert (H256 : Forall (fun i => i < 256) numbers).
  { eapply Forall_impl; [exact Hall|]. cbn beta. intros i Hi. lia. }
  rewrite surviving_Encode by exact Hall.
  unfold Decode. cbv zeta.
  rewrite length_map, Hlen, Nat.ltb_irrefl.
  assert (Enum : map Number (map (share_of rs plaintext) numbers) = numbers).
  { rewrite map_map. cbn [Number share_of]. apply map_id. }
  rewrite Enum, (bool_decide_eq_true_2 _ Hnd). cbn [andb].
  assert (Hrange : forallb (fun s => Number s <? totalCount rs)
                     (map (share_of rs plaintext) numbers) = true).
  { apply forallb_forall. intros s Hin. apply in_map_iff in Hin.
    destruct Hin as (i & <- & Hi). cbn [Number share_of]. apply Nat.ltb_lt.
    rewrite Forall_forall in Hall. apply Hall, list_elem_of_In, Hi. }
  rewrite Hrange. cbn [negb].
  assert (Hstripe : match map (share_of rs plaintext) numbers with
                    | [] => 0
                    | s :: _ => length (Data s)
                    end = stripeSize rs (length plaintext)).
  { destruct numbers as [|i numbers']; [cbn [length] in Hlen; lia|].
    cbn [map Data share_of]. rewrite length_map. apply length_plain_blocks. }
  rewrite Hstripe.
  assert (Hsizes : forallb (fun s => length (Data s) =? stripeSize rs (length plaintext))
                     (map (share_of rs plaintext) numbers) = true).
  { apply forallb_forall. intros s Hin. apply in_map_iff in Hin.
    destruct Hin as (i & <- & Hi). cbn [Data share_of]. apply Nat.eqb_eq.
    rewrite length_map. apply length_plain_blocks. }
  rewrite Hsizes. cbn [negb].
  rewrite (firstn_all2 (map (share_of rs plaintext) numbers))
    by (rewrite length_map; lia).
  f_equal.
  assert (Eblocks : map (fun t => gf_normalize (requiredCount rs)
                                    (gf_interpolate
                                       (map (fun s => (point (Number s), nth t (Data s) x00))
                                            (map (share_of rs plaintext) numbers))))
                        (seq 0 (stripeSize rs (length plaintext)))
                    = plain_blocks rs plaintext).
  { transitivity (map (fun t => nth t (plain_blocks rs plaintext) [])
                    (seq 0 (length (plain_blocks rs plaintext))));
      [|apply map_nth_seq].
    rewrite length_plain_blocks. apply map_ext_in. intros t Ht.
    apply in_seq in Ht. apply decode_block; try assumption. lia. }
  rewrite Eblocks. unfold plain_blocks.
  rewrite concat_blocks by (apply length_pad, stripe_fits; assumption).
  apply firstn_pad.
Qed.

(** Shares 3 and 1 of a (2, 4) code give "hello" back. *)
Lemma decode_encode_any_k_witness :
  Decode rs_2_4 (length hello) (surviving (Encode rs_2_4 hello) [3; 1]) = inr hello.
Proof.
  apply (decode_encode_any_k 2 4 3 4 2 (EEStream.mkFEC 2 4)).
  - reflexivity.
  - reflexivity.
  - apply NoDup_ListNoDup. repeat constructor; cbn; intuition lia.
  - reflexivity.
  - repeat constructor.
Defined.

(** [Encode] gives [n] shares, numbered in order, all of the stripe size. *)
Lemma Encode_shape (rs : EEStream.RedundancyStrategy) (plaintext : list byte) :
  length (Encode rs plaintext) = totalCount rs
  /\ map Number (Encode rs plaintext) = seq 0 (totalCount rs)
  /\ Forall (fun s => length (Data s) = stripeSize rs (length plaintext))
       (Encode rs plaintext).
Proof.
  unfold Encode. cbv zeta. split; [|split].
  - rewrite length_map, length_seq. reflexivity.
  - rewrite map_map. cbn [Number]. apply map_id.
  - apply Forall_forall. intros s Hin. apply list_elem_of_In, in_map_iff in Hin.
    destruct Hin as (i & <- & _). cbn [Data]. rewrite length_map. apply length_blocks.
Qed.

(** Fewer than [k] shares are refused. *)
Lemma Decode_too_few (rs : EEStream.RedundancyStrategy) (size : nat) (shares : list Share) :
  length shares < requiredCount rs -> Decode rs size shares = inl NotEnoughShares.
Proof.
  intros H. unfold Decode. cbv zeta.
  apply Nat.ltb_lt in H. rewrite H. reflexivity.
Qed.

End RoundTrip.

(* ================================================================== *)
(** * Part III: further properties of the code                         *)
(* ================================================================== *)

(** ** Host and port defaults *)

Section AddressDefaults.
Import SetupAddr.
Local Open Scope string_scope.

Variable net_SplitHostPort : string -> string + (string * string).

Local Abbreviation Apply := (ApplyDefaultHostAndPortToAddr net_SplitHostPort).

Lemma strings_Index_range (s : string) (sep : ascii) :
  (strings_Index s sep = -1 \/ 0 <= strings_Index s sep)%Z.
Proof.
  induction s as [|c r IH]; cbn [strings_Index]; [left; reflexivity|].
  destruct (Ascii.eqb c sep); [right; lia|].
  destruct (Z.ltb_spec (strings_Index r sep) 0); [left; reflexivity|right; lia].
Qed.

Lemma no_colon_cons (c : ascii) (r : string) :
  no_colon (String c r) -> Ascii.eqb c ":" = false /\ no_colon r.
Proof.
  unfold no_colon. cbn [strings_Index].
  destruct (Ascii.eqb c ":"); [discriminate|]. intros H. split; [reflexivity|].
  destruct (Z.ltb_spec (strings_Index r ":") 0) as [Hlt|Hge]; [|lia].
  destruct (strings_Index_range r ":"); [assumption|lia].
Qed.

Lemma len_pos (s : string) : (0 <? len s)%Z = negb (String.eqb s "").
Proof. destruct s; reflexivity. Qed.

Lemma len_zero (s : string) : (len s =? 0)%Z = String.eqb s "".
Proof. destruct s; reflexivity. Qed.

Lemma split_no_colon (s : string) : no_colon s -> strings_Split s ":" = [s].
Proof.
  induction s as [|c r IH]; intros H; cbn [strings_Split]; [reflexivity|].
  apply no_colon_cons in H. destruct H as [Hc Hr].
  rewrite Hc, (IH Hr). reflexivity.
Qed.

Lemma append_cons (c : ascii) (r t : string) : String c r ++ t = String c (r ++ t).
Proof. reflexivity. Qed.

Lemma split_app_colon (h t : string) :
  no_colon h -> strings_Split (h ++ ":" ++ t) ":" = h :: strings_Split t ":".
Proof.
  induction h as [|c r IH]; intros H.
  - reflexivity.
  - apply no_colon_cons in H. destruct H as [Hc Hr].
    rewrite append_cons. cbn [strings_Split]. rewrite Hc.
    rewrite (IH Hr). reflexivity.
Qed.

Lemma index_app_colon (h t : string) :
  no_colon h -> strings_Index (h ++ ":" ++ t) ":" = len h.
Proof.
  induction h as [|c r IH]; intros H.
  - reflexivity.
  - apply no_colon_cons in H. destruct H as [Hc Hr].
    rewrite append_cons. cbn [strings_Index]. rewrite Hc.
    rewrite (IH Hr).
    unfold len. cbn [String.length].
    destruct (Z.ltb_spec (Z.of_nat (String.length r)) 0); lia.
Qed.

(** Splitting undoes joining, and joining undoes splitting. *)
Lemma split_join (parts : list string) :
  Forall no_colon parts -> parts <> [] ->
  strings_Split (join_colon parts) ":" = parts.
Proof.
  induction parts as [|p ps IH]; intros Hall Hne; [contradiction|].
  apply Forall_cons_iff in Hall. destruct Hall as [Hp Hps].
  destruct ps as [|q qs].
  - cbn [join_colon]. apply split_no_colon, Hp.
  - change (join_colon (p :: q :: qs)) with (p ++ ":" ++ join_colon (q :: qs)).
    rewrite split_app_colon by exact Hp. rewrite IH; [reflexivity|exact Hps|discriminate].
Qed.

Lemma split_parts (s : string) :
  Forall no_colon (strings_Split s ":")
  /\ strings_Split s ":" <> []
  /\ join_colon (strings_Split s ":") = s.
Proof.
  induction s as [|c r (IHa & IHn & IHj)]; cbn [strings_Split].
  - repeat split; [repeat constructor|discriminate].
  - destruct (Ascii.eqb_spec c ":") as [->|Hc].
    + split; [constructor; [reflexivity|exact IHa]|]. split; [discriminate|].
      destruct (strings_Split r ":") as [|q qs] eqn:E; [contradiction|].
      change (join_colon ("" :: q :: qs)) with ("" ++ ":" ++ join_colon (q :: qs)).
      rewrite IHj. reflexivity.
    + destruct (strings_Split r ":") as [|q qs] eqn:E; [contradiction|].
      apply Forall_cons_iff in IHa. destruct IHa as [Hq Hqs].
      assert (Hcq : no_colon (String c q)).
      { unfold no_colon in *. cbn [strings_Index].
        apply Ascii.eqb_neq in Hc. rewrite Hc, Hq. reflexivity. }
      split; [constructor; assumption|]. split; [discriminate|].
      destruct qs as [|q' qs'].
      * cbn [join_colon] in *. rewrite IHj. reflexivity.
      * change (join_colon (String c q :: q' :: qs'))
          with (String c (q ++ ":" ++ join_colon (q' :: qs'))).
        change (join_colon (q :: q' :: qs')) with (q ++ ":" ++ join_colon (q' :: qs')) in IHj.
        rewrite IHj. reflexivity.
Qed.

Lemma index_join (p : string) (ps : list string) :
  no_colon p ->
  strings_Index (join_colon (p :: ps)) ":" = match ps with [] => (-1)%Z | _ => len p end.
Proof.
  intros Hp. destruct ps as [|q qs]; [exact Hp|].
  change (join_colon (p :: q :: qs)) with (p ++ ":" ++ join_colon (q :: qs)).
  apply index_app_colon, Hp.
Qed.

(** The function on an address given by its colon-separated parts. *)
Lemma Apply_parts (parts : list string) (defaultAddress dh dp : string) :
  Forall no_colon parts -> parts <> [] ->
  net_SplitHostPort defaultAddress = inr (dh, dp) ->
  Apply (join_colon parts) defaultAddress =
  Go.Returned
    (match parts with
     | [] => defaultAddress
     | [p0] => if String.eqb p0 "" then defaultAddress else net_JoinHostPort p0 dp
     | p0 :: p1 :: _ =>
         if negb (String.eqb p0 "") && negb (String.eqb p1 "")
         then join_colon parts
         else if String.eqb p0 "" then net_JoinHostPort dh p1
              else net_JoinHostPort p0 dp
     end, None).
Proof.
  intros Hall Hne Hd. unfold ApplyDefaultHostAndPortToAddr.
  rewrite Hd, (split_join parts Hall Hne).
  destruct parts as [|p0 ps]; [contradiction|].
  apply Forall_cons_iff in Hall. destruct Hall as [Hp0 _].
  rewrite (index_join p0 ps Hp0).
  unfold Go.call, Go.try, Go.pure, index.
  unfold Go.bind, Go.ret, Go.return_, Go.panic. cbv beta.
  destruct ps as [|p1 more].
  - cbn [List.length Z.of_nat Z.ltb Z.compare Pos.compare Pos.compare_cont
         nth_error fst snd].
    change (-1 <? 0)%Z with true. cbv iota beta.
    rewrite len_zero. destruct (String.eqb p0 ""); reflexivity.
  - assert (Hlen : (1 <? Z.of_nat (List.length (p0 :: p1 :: more)))%Z = true).
    { apply Z.ltb_lt. cbn [List.length]. lia. }
    rewrite Hlen. cbn [nth_error fst snd].
    rewrite !len_pos.
    destruct (String.eqb p0 "") eqn:E0; cbn [negb andb fst snd].
    + apply String.eqb_eq in E0. subst p0.
      change (len "" <? 0)%Z with false. change (len "" =? 0)%Z with true.
      cbv iota. reflexivity.
    + destruct (String.eqb p1 "") eqn:E1; cbn [negb andb fst snd]; [|reflexivity].
      assert (Hpos : (0 < len p0)%Z).
      { destruct p0; [discriminate|]. unfold len. cbn [String.length]. lia. }
      destruct (Z.ltb_spec (len p0) 0); [lia|].
      destruct (Z.eqb_spec (len p0) 0); [lia|]. reflexivity.
Qed.

Lemma Apply_default_error (address defaultAddress e : string) :
  net_SplitHostPort defaultAddress = inl e ->
  Apply address defaultAddress = Go.Returned ("", Some (ErrSetup e)).
Proof.
  intros Hd. unfold ApplyDefaultHostAndPortToAddr. rewrite Hd. reflexivity.
Qed.

Lemma ApplyDefault_outcome (address defaultAddress : string) :
  match net_SplitHostPort defaultAddress with
  | inl e => Apply address defaultAddress = Go.Returned ("", Some (ErrSetup e))
  | inr _ => exists r, Apply address defaultAddress = Go.Returned (r, None)
  end.
Proof.
  destruct (net_SplitHostPort defaultAddress) as [e|[dh dp]] eqn:Hd.
  - apply Apply_default_error, Hd.
  - destruct (split_parts address) as (Hall & Hne & Hj).
    pose proof (Apply_parts _ _ dh dp Hall Hne Hd) as E. rewrite Hj in E.
    rewrite E. eexists. reflexivity.
Qed.

Lemma ApplyDefault_complete_parts (h p : string) (more : list string)
  (defaultAddress dh dp : string) :
  net_SplitHostPort defaultAddress = inr (dh, dp) ->
  no_colon h -> no_colon p -> Forall no_colon more ->
  h <> "" -> p <> "" ->
  Apply (join_colon (h :: p :: more)) defaultAddress
  = Go.Returned (join_colon (h :: p :: more), None).
Proof.
  intros Hd Hh Hp Hmore Hhne Hpne.
  rewrite (Apply_parts _ _ dh dp); [|repeat constructor; assumption|discriminate|exact Hd].
  apply String.eqb_neq in Hhne, Hpne. rewrite Hhne, Hpne. reflexivity.
Qed.

(** X1: ApplyDefaultHostAndPortToAddr never panics; it fails exactly when
    the default address does not split into host and port, whatever the
    address is (a complete one too), and then returns the empty string with
    the wrapped error; otherwise it returns an address and no error. *)
Theorem ApplyDefault_fails_only_on_default (address defaultAddress : string) :
  match net_SplitHostPort defaultAddress with
  | inl e =>
      ApplyDefaultHostAndPortToAddr net_SplitHostPort address defaultAddress
      = Go.Returned ("", Some (ErrSetup e))
  | inr _ =>
      exists r, ApplyDefaultHostAndPortToAddr net_SplitHostPort address defaultAddress
                = Go.Returned (r, None)
  end.
Proof. apply ApplyDefault_outcome. Qed.

(** X2: an address whose first two colon-separated parts are both present
    (host:port, whatever follows) is returned unchanged. *)
Theorem ApplyDefault_complete_unchanged (h p : string) (more : list string)
  (defaultAddress dh dp : string) :
  net_SplitHostPort defaultAddress = inr (dh, dp) ->
  no_colon h -> no_colon p -> Forall no_colon more ->
  h <> "" -> p <> "" ->
  Apply (join_colon (h :: p :: more)) defaultAddress
  = Go.Returned (join_colon (h :: p :: more), None).
Proof. apply ApplyDefault_complete_parts. Qed.

Lemma JoinHostPort_plain (h p : string) :
  no_colon h -> net_JoinHostPort h p = h ++ ":" ++ p.
Proof. intros H. unfold net_JoinHostPort. rewrite H. reflexivity. Qed.

(** X3: a missing host or port is filled in from the default address, and
    parts after a second colon are dropped: the empty address becomes the
    default address, a bare host gets the default port, an address that
    starts with a colon gets the default host (joined with what stands
    between the first and the second colon), and a host followed by a colon
    with nothing after it gets the default port. *)
Theorem ApplyDefault_fills_missing (h p : string) (more : list string)
  (defaultAddress dh dp : string) :
  net_SplitHostPort defaultAddress = inr (dh, dp) ->
  no_colon h -> no_colon p -> Forall no_colon more -> h <> "" ->
  Apply "" defaultAddress = Go.Returned (defaultAddress, None)
  /\ Apply h defaultAddress = Go.Returned (h ++ ":" ++ dp, None)
  /\ Apply (join_colon ("" :: p :: more)) defaultAddress
     = Go.Returned (net_JoinHostPort dh p, None)
  /\ Apply (join_colon (h :: "" :: more)) defaultAddress
     = Go.Returned (h ++ ":" ++ dp, None).
Proof.
  intros Hd Hh Hp Hmore Hhne.
  apply String.eqb_neq in Hhne.
  split; [|split; [|split]].
  - change "" with (join_colon [""]) at 1.
    rewrite (Apply_parts _ _ dh dp); [reflexivity|repeat constructor|discriminate|exact Hd].
  - change h with (join_colon [h]) at 1.
    rewrite (Apply_parts _ _ dh dp); [|repeat constructor; assumption|discriminate|exact Hd].
    rewrite Hhne, (JoinHostPort_plain h dp Hh). reflexivity.
  - rewrite (Apply_parts _ _ dh dp); [reflexivity| |discriminate|exact Hd].
    constructor; [reflexivity|]. constructor; assumption.
  - rewrite (Apply_parts _ _ dh dp); [| |discriminate|exact Hd].
    + rewrite Hhne. cbn [negb andb String.eqb]. rewrite (JoinHostPort_plain h dp Hh).
      reflexivity.
    + constructor; [assumption|]. constructor; [reflexivity|assumption].
Qed.

(** X4: applying the defaults a second time changes nothing, provided the
    default address is host:port with both present and no colon in either,
    and the address is not a lone colon and does not start with two colons.
    For the lone colon it does change: the first result has an empty port,
    which the second application fills in. *)
Theorem ApplyDefault_twice (address r dh dp : string) :
  net_SplitHostPort (dh ++ ":" ++ dp) = inr (dh, dp) ->
  no_colon dh -> no_colon dp -> dh <> "" -> dp <> "" ->
  (address <> ":" /\ (forall t, address <> "::" ++ t) ->
   Apply address (dh ++ ":" ++ dp) = Go.Returned (r, None) ->
   Apply r (dh ++ ":" ++ dp) = Go.Returned (r, None))
  /\ Apply ":" (dh ++ ":" ++ dp) = Go.Returned (dh ++ ":", None)
  /\ Apply (dh ++ ":") (dh ++ ":" ++ dp) = Go.Returned (dh ++ ":" ++ dp, None).
Proof.
  intros Hd Hdh Hdp Hdhne Hdpne.
  assert (Hpair : forall x y, no_colon x -> no_colon y -> x <> "" -> y <> "" ->
            Apply (x ++ ":" ++ y) (dh ++ ":" ++ dp) = Go.Returned (x ++ ":" ++ y, None)).
  { intros x y Hx Hy Hxne Hyne.
    exact (ApplyDefault_complete_parts x y [] _ dh dp Hd Hx Hy (Forall_nil_2 _) Hxne Hyne). }
  split; [|split].
  - intros [Hlone Hdouble] Hr.
    destruct (split_parts address) as (Hall & Hne & Hj).
    pose proof (Apply_parts _ _ dh dp Hall Hne Hd) as E. rewrite Hj in E.
    rewrite E in Hr. clear E.
    destruct (strings_Split address ":") as [|p0 [|p1 more]] eqn:E; [contradiction| |].
    + cbn [join_colon] in Hj. subst p0.
      destruct (String.eqb address "") eqn:Ea; inversion Hr; subst r.
      * apply Hpair; assumption.
      * apply Forall_cons_iff in Hall. destruct Hall as [Ha _].
        rewrite (JoinHostPort_plain address dp Ha).
        apply Hpair; try assumption. apply String.eqb_neq, Ea.
    + apply Forall_cons_iff in Hall. destruct Hall as [H0 Hall].
      apply Forall_cons_iff in Hall. destruct Hall as [H1 Hmore].
      destruct (String.eqb p0 "") eqn:E0; destruct (String.eqb p1 "") eqn:E1;
        cbn [negb andb] in Hr; inversion Hr; subst r.
      * exfalso. apply String.eqb_eq in E0, E1. subst p0 p1.
        destruct more as [|q qs].
        -- apply Hlone. rewrite <- Hj. reflexivity.
        -- apply (Hdouble (join_colon (q :: qs))). rewrite <- Hj. reflexivity.
      * rewrite (JoinHostPort_plain dh p1 Hdh).
        apply Hpair; try assumption. apply String.eqb_neq, E1.
      * rewrite (JoinHostPort_plain p0 dp H0).
        apply Hpair; try assumption. apply String.eqb_neq, E0.
      * apply String.eqb_neq in E0, E1. rewrite <- Hj.
        exact (ApplyDefault_complete_parts p0 p1 more _ dh dp Hd H0 H1 Hmore E0 E1).
  - change ":" with (join_colon [""; ""]) at 1.
    rewrite (Apply_parts _ _ dh dp); [|repeat constructor|discriminate|exact Hd].
    cbn [String.eqb negb andb]. rewrite (JoinHostPort_plain dh "" Hdh). reflexivity.
  - change (dh ++ ":") with (join_colon [dh; ""]).
    rewrite (Apply_parts _ _ dh dp); [|repeat constructor; assumption|discriminate|exact Hd].
    apply String.eqb_neq in Hdhne. rewrite Hdhne. cbn [String.eqb negb andb].
    rewrite (JoinHostPort_plain dh dp Hdh). reflexivity.
Qed.

(** X5: ApplyDefaultHostAndPortToAddrFlag leaves a missing flag alone and
    reports no error; for a flag that exists it completes the flag's value
    from the flag's own default and stores the result, leaving the default
    and every other flag as they were; when the default does not split, the
    error is returned and no flag changes. *)
Theorem ApplyDefault_flag (flagName : string) (flags : gmap string Flag) :
  match flags !! flagName with
  | None =>
      ApplyDefaultHostAndPortToAddrFlag net_SplitHostPort flagName flags
      = (Go.Returned None, flags)
  | Some f =>
      match net_SplitHostPort (DefValue f) with
      | inl e =>
          ApplyDefaultHostAndPortToAddrFlag net_SplitHostPort flagName flags
          = (Go.Returned (Some (ErrSetup e)), flags)
      | inr _ =>
          exists a,
            Apply (FlagValue f) (DefValue f) = Go.Returned (a, None)
            /\ ApplyDefaultHostAndPortToAddrFlag net_SplitHostPort flagName flags
               = (Go.Returned None, <[flagName := mkFlag a (DefValue f)]> flags)
      end
  end.
Proof.
  unfold ApplyDefaultHostAndPortToAddrFlag.
  unfold Go.call, Go.bind, Go.return_. cbv beta.
  destruct (flags !! flagName) as [f|] eqn:Hf; [|reflexivity].
  pose proof (ApplyDefault_outcome (FlagValue f) (DefValue f)) as H.
  destruct (net_SplitHostPort (DefValue f)) as [e|[dh dp]].
  - rewrite H. reflexivity.
  - destruct H as [a Ha]. exists a. split; [exact Ha|]. rewrite Ha. cbn [fst snd].
    destruct (String.eqb (FlagValue f) a) eqn:E; [|reflexivity].
    apply String.eqb_eq in E. subst a. destruct f as [v d]. cbn [FlagValue DefValue].
    rewrite insert_id by exact Hf. reflexivity.
Qed.

End AddressDefaults.

(** The defaults applied to concrete addresses. *)
Lemma ApplyDefault_complete_unchanged_witness :
  SetupAddr.ApplyDefaultHostAndPortToAddr MoreExamples.split_plain
    "host:1234" "127.0.0.1:7777"
  = Go.Returned ("host:1234"%string, None).
Proof.
  apply (ApplyDefault_complete_unchanged MoreExamples.split_plain "host" "1234" []
           "127.0.0.1:7777" "127.0.0.1" "7777").
  - reflexivity.
  - reflexivity.
  - reflexivity.
  - constructor.
  - discriminate.
  - discriminate.
Defined.

Lemma ApplyDefault_fills_missing_witness :
  SetupAddr.ApplyDefaultHostAndPortToAddr MoreExamples.split_plain "" "127.0.0.1:7777"
  = Go.Returned ("127.0.0.1:7777"%string, None)
  /\ SetupAddr.ApplyDefaultHostAndPortToAddr MoreExamples.split_plain "host" "127.0.0.1:7777"
     = Go.Returned ("host:7777"%string, None)
  /\ SetupAddr.ApplyDefaultHostAndPortToAddr MoreExamples.split_plain ":1234:x" "127.0.0.1:7777"
     = Go.Returned ("127.0.0.1:1234"%string, None)
  /\ SetupAddr.ApplyDefaultHostAndPortToAddr MoreExamples.split_plain "host::x" "127.0.0.1:7777"
     = Go.Returned ("host:7777"%string, None).
Proof.
  apply (ApplyDefault_fills_missing MoreExamples.split_plain "host" "1234" ["x"%string]
           "127.0.0.1:7777" "127.0.0.1" "7777").
  - reflexivity.
  - reflexivity.
  - reflexivity.
  - repeat constructor.
  - discriminate.
Defined.

Lemma ApplyDefault_twice_witness :
  SetupAddr.ApplyDefaultHostAndPortToAddr MoreExamples.split_plain
    "127.0.0.1:1234" "127.0.0.1:7777"
  = Go.Returned ("127.0.0.1:1234"%string, None).
Proof.
  apply (proj1 (ApplyDefault_twice MoreExamples.split_plain ":1234" "127.0.0.1:1234"
                  "127.0.0.1" "7777" eq_refl eq_refl eq_refl
                  ltac:(discriminate) ltac:(discriminate))).
  - split; [discriminate|]. intros t. discriminate.
  - reflexivity.
Defined.

(** ** Bucket operations and the bucket store *)

Section BucketStore.
Import Kvmetainfo.
Variable EncryptionParameters : Type.
Variable zeroEncryptionParameters : EncryptionParameters.
Variable ToEncryptionScheme : EncryptionParameters -> EncryptionScheme.
Variable ToEncryptionParameters : EncryptionScheme -> EncryptionParameters.

Local Abbreviation CreateBucket :=
  (Kvmetainfo.CreateBucket EncryptionParameters zeroEncryptionParameters
     ToEncryptionScheme ToEncryptionParameters).
Local Abbreviation GetBucket :=
  (Kvmetainfo.GetBucket EncryptionParameters zeroEncryptionParameters ToEncryptionParameters).
Local Abbreviation zeroBucket :=
  (Kvmetainfo.zeroBucket EncryptionParameters zeroEncryptionParameters).
Local Abbreviation bucketFromMeta :=
  (Kvmetainfo.bucketFromMeta EncryptionParameters ToEncryptionParameters).

(** X6: CreateBucket with a nil info behaves as with the empty bucket
    value: for a named bucket the meta it puts carries the zero path cipher,
    not the AES-GCM that getPathCipher has for a nil info, because info has
    been replaced before getPathCipher sees it. *)
Theorem CreateBucket_nil_info (name : string) :
  CreateBucket name None = CreateBucket name (Some zeroBucket)
  /\ getPathCipher EncryptionParameters None = AESGCM
  /\ (name <> ""%string ->
      exists meta k,
        CreateBucket name None = Ask (StorePut name meta) k
        /\ PathEncryptionType meta = 0
        /\ PathEncryptionType meta <> AESGCM).
Proof.
  split; [reflexivity|]. split; [reflexivity|].
  intros Hne. apply String.eqb_neq in Hne.
  unfold Kvmetainfo.CreateBucket. rewrite Hne.
  eexists _, _. split; [reflexivity|]. split; [reflexivity|].
  cbn. discriminate.
Qed.

(** X7: against any bucket store, CreateBucket and GetBucket on a named
    bucket ask the store exactly once and return either a bucket bearing
    the requested name with no error, or the empty bucket with the store's
    error, never both and never neither; DeleteBucket returns the store's
    own answer. *)
Theorem bucket_results (name : string) (info : option (Bucket EncryptionParameters))
  (St : Type) (h : forall X, StoreOp X -> St -> X * St) (s : St) :
  name <> ""%string ->
  (exists meta,
     let (x, s') := h _ (StorePut name meta) s in
     snd (interp h (CreateBucket name info) s) = s'
     /\ match x with
        | inl e => fst (interp h (CreateBucket name info) s) = (zeroBucket, Some e)
        | inr m => exists b, fst (interp h (CreateBucket name info) s) = (b, None)
                             /\ Name _ b = name /\ b = bucketFromMeta name m
        end)
  /\ (let (x, s') := h _ (StoreGet name) s in
      snd (interp h (GetBucket name) s) = s'
      /\ match x with
         | inl e => fst (interp h (GetBucket name) s) = (zeroBucket, Some e)
         | inr m => exists b, fst (interp h (GetBucket name) s) = (b, None)
                              /\ Name _ b = name /\ b = bucketFromMeta name m
         end)
  /\ interp h (DeleteBucket name) s = h _ (StoreDelete name) s
  /\ asked h (CreateBucket name info) s = 1%nat
  /\ asked h (GetBucket name) s = 1%nat
  /\ asked h (DeleteBucket name) s = 1%nat.
Proof.
  intros Hne. apply String.eqb_neq in Hne.
  unfold Kvmetainfo.CreateBucket, Kvmetainfo.GetBucket, Kvmetainfo.DeleteBucket.
  rewrite Hne. cbn [interp asked].
  split; [|split; [|split; [|split; [|split]]]].
  - match goal with
    | |- context [h _ (StorePut name ?m) s] => exists m
    end.
    destruct (h _ (StorePut name _) s) as [[e|m] s']; cbn [interp fst snd].
    + split; reflexivity.
    + split; [reflexivity|]. eexists. repeat split.
  - destruct (h _ (StoreGet name) s) as [[e|m] s']; cbn [interp fst snd].
    + split; reflexivity.
    + split; [reflexivity|]. eexists. repeat split.
  - destruct (h _ (StoreDelete name) s) as [r s']. reflexivity.
  - destruct (h _ _ s) as [[e|m] s']; reflexivity.
  - destruct (h _ _ s) as [[e|m] s']; reflexivity.
  - destruct (h _ _ s) as [r s']; reflexivity.
Qed.

End BucketStore.

(** ** Listing buckets *)

Section BucketListing.
Import Kvmetainfo KvmetainfoList.
Variable EncryptionParameters : Type.
Variable zeroEncryptionParameters : EncryptionParameters.
Variable ToEncryptionParameters : EncryptionScheme -> EncryptionParameters.

Local Abbreviation ListBuckets :=
  (KvmetainfoList.ListBuckets EncryptionParameters ToEncryptionParameters).
Local Abbreviation zeroBucketList := (KvmetainfoList.zeroBucketList EncryptionParameters).
Local Abbreviation bucketOfItem :=
  (fun item => Kvmetainfo.bucketFromMeta EncryptionParameters ToEncryptionParameters
                 (ItemBucket item) (ItemMeta item)).

(** X8: ListBuckets turns to the bucket store at most once: never for a
    direction outside the four known ones, which is an error, and otherwise
    with the caller's limit and with one of the two bounds empty: listing
    backwards leaves startAfter empty, listing forwards leaves endBefore
    empty. *)
Theorem ListBuckets_store_request (keyAfter keyBefore : string -> string)
  (options : BucketListOptions) :
  match ListBuckets keyAfter keyBefore options with
  | ListDone r =>
      exists d, Direction options = OtherDirection d
                /\ r = (zeroBucketList, Some (ErrInvalidDirection d))
  | AskList startAfter endBefore limit k =>
      limit = Limit options
      /\ (forall d, Direction options <> OtherDirection d)
      /\ (if is_backwards (Direction options)
          then startAfter = ""%string
          else endBefore = ""%string)
      /\ (forall x, exists r, k x = ListDone r)
  end.
Proof.
  unfold KvmetainfoList.ListBuckets.
  destruct (Direction options) eqn:Hd; cbn [is_backwards andb].
  1-4: (split; [reflexivity|]; split; [intros d0; discriminate|]; split;
        [first [reflexivity | rewrite ?andb_false_r; reflexivity]|];
        intros [e|[items more]]; eexists; reflexivity).
  eexists. split; reflexivity.
Qed.

(** X9: with an empty cursor, Before and Backward are the same listing:
    both ask the store for what precedes the fixed key of seven 0x7f bytes,
    whatever keyAfter makes of the empty cursor. *)
Theorem ListBuckets_empty_cursor_backwards (keyAfter keyAfter' keyBefore keyBefore'
  : string -> string) (limit : Z) :
  ListBuckets keyAfter keyBefore (mkBucketListOptions "" Before limit)
  = ListBuckets keyAfter' keyBefore' (mkBucketListOptions "" Backward limit)
  /\ (exists k, ListBuckets keyAfter keyBefore (mkBucketListOptions "" Backward limit)
                = AskList "" lastKey limit k)
  /\ String.length lastKey = 7%nat
  /\ (forall c, In c (list_ascii_of_string lastKey) -> c = ascii_of_nat 127).
Proof.
  split; [reflexivity|]. split; [eexists; reflexivity|]. split; [reflexivity|].
  intros c Hc. cbn in Hc. intuition (subst; reflexivity).
Qed.

Local Ltac list_answer h s :=
  match goal with
  | |- context [h ?a ?b ?l s] =>
      let Hh := fresh "Hh" in
      destruct (h a b l s) as [[?e|[?items ?more]] ?s1] eqn:Hh;
      cbn [list_interp fst snd];
      [ left; eexists _, _, _; split; [exact Hh|reflexivity]
      | right; eexists _, _, _, _; split; [exact Hh|];
        cbn [More Items fst snd]; repeat split;
        [ rewrite map_map; reflexivity | rewrite length_map; reflexivity ] ]
  end.

(** X10: against any store, ListBuckets ends in one of three ways: the
    direction is unknown, and the store is left alone; the store fails, and
    its error is returned with the empty list; or the store answers, and
    the result has no error, the store's More flag, and one bucket per
    item, in the store's order, each bearing the item's name and built from
    the item's meta. *)
Theorem ListBuckets_result (keyAfter keyBefore : string -> string)
  (options : BucketListOptions) (St : Type)
  (h : string -> string -> Z -> St -> (string + (list ListItem * bool)) * St) (s : St) :
  let r := fst (list_interp h (ListBuckets keyAfter keyBefore options) s) in
  let s' := snd (list_interp h (ListBuckets keyAfter keyBefore options) s) in
  (exists d, Direction options = OtherDirection d
             /\ r = (zeroBucketList, Some (ErrInvalidDirection d)) /\ s' = s)
  \/ (exists startAfter endBefore e,
        h startAfter endBefore (Limit options) s = (inl e, s')
        /\ r = (zeroBucketList, Some (KvmetainfoList.ErrStore e)))
  \/ (exists startAfter endBefore items more,
        h startAfter endBefore (Limit options) s = (inr (items, more), s')
        /\ snd r = None
        /\ More _ (fst r) = more
        /\ Items _ (fst r) = map bucketOfItem items
        /\ map (Name _) (Items _ (fst r)) = map ItemBucket items
        /\ List.length (Items _ (fst r)) = List.length items).
Proof.
  cbv zeta. unfold KvmetainfoList.ListBuckets.
  destruct (Direction options) eqn:Hd; cbn [is_backwards list_interp].
  5: { left. eexists. repeat split. }
  all: right; list_answer h s.
Qed.

End BucketListing.

(** The bucket operations against a store kept in a map. *)
Lemma CreateBucket_nil_info_witness :
  exists meta k,
    Kvmetainfo.CreateBucket unit tt (fun _ => mkEncryptionScheme 0 0) (fun _ => tt)
      "photos" None
    = Kvmetainfo.Ask (Kvmetainfo.StorePut "photos" meta) k
    /\ Kvmetainfo.PathEncryptionType meta = 0
    /\ Kvmetainfo.PathEncryptionType meta <> AESGCM.
Proof.
  apply (proj2 (proj2 (CreateBucket_nil_info unit tt (fun _ => mkEncryptionScheme 0 0)
                         (fun _ => tt) "photos"))).
  discriminate.
Defined.

Lemma bucket_results_witness :
  Kvmetainfo.asked MoreExamples.map_store
    (Kvmetainfo.GetBucket unit tt (fun _ => tt) "photos") ∅ = 1%nat.
Proof.
  apply (bucket_results unit tt (fun _ => mkEncryptionScheme 0 0) (fun _ => tt)
           "photos" None _ MoreExamples.map_store ∅).
  discriminate.
Defined.

(** ** The client and its key file, end to end *)

Lemma key_of_read_length (bs : list byte) : List.length (key_of_read bs) = KeySize.
Proof.
  unfold key_of_read. rewrite length_app, length_firstn, repeat_length. lia.
Qed.

Lemma zeroKey_length : List.length zeroKey = KeySize.
Proof. apply repeat_length. Qed.

(** A key of full length is its own reading; a shorter one is padded with
    zero bytes; a longer one is cut. *)
Lemma key_of_read_firstn (key : list byte) :
  key_of_read (firstn KeySize key)
  = firstn KeySize key ++ repeat x00 (KeySize - List.length key).
Proof.
  unfold key_of_read. rewrite firstn_firstn, Nat.min_id, length_firstn.
  f_equal. f_equal. lia.
Qed.

(** X11: keyFilepath.Key always returns, after one read-only open of the
    path and nothing else; the key it returns always has the key length,
    and whenever it returns an error the key is the zero key: no key
    material accompanies an error. *)
Theorem keyFilepath_Key_shape (kfp : string) (w : World) :
  exists key err,
    keyFilepath_Key kfp w = (Go.Returned (key, err), log (EvOpenFile kfp O_RDONLY) w)
    /\ List.length key = KeySize
    /\ (err <> None -> key = zeroKey).
Proof.
  rewrite keyFilepath_Key_eq. cbv zeta.
  destruct (fs w !! kfp) as [n|].
  - destruct (fault w SysStat).
    { eexists _, _. split; [reflexivity|]. split; [apply zeroKey_length|reflexivity]. }
    destruct (Perm (node_mode n) =? 256).
    2: { eexists _, _. split; [reflexivity|]. split; [apply zeroKey_length|reflexivity]. }
    destruct (fault w SysRead).
    { eexists _, _. split; [reflexivity|]. split; [apply zeroKey_length|reflexivity]. }
    destruct n.
    + eexists _, _. split; [reflexivity|]. split; [apply key_of_read_length|].
      intros H. contradiction H. reflexivity.
    + eexists _, _. split; [reflexivity|]. split; [apply zeroKey_length|reflexivity].
  - destruct (fs w !! dirname kfp) as [[|]|];
      eexists _, _; (split; [reflexivity|]); (split; [apply zeroKey_length|reflexivity]).
Qed.

(** X12: what SaveEncryptionKey saved is what keyFilepath.Key loads.  After
    a successful save, reading the same path (stat and read not failing)
    gives no error and the saved bytes in a key-length array: exactly the
    key when it has the key length, the key followed by zero bytes when it
    is shorter, and only its first KeySize bytes when it is longer. *)
Theorem saved_key_is_loaded (key : list byte) (path : string) (w w' : World) :
  SaveEncryptionKey key path w = (Go.Returned None, w') ->
  fault w SysStat = None ->
  fault w SysRead = None ->
  fst (keyFilepath_Key path w')
  = Go.Returned (firstn KeySize key ++ repeat x00 (KeySize - List.length key), None)
  /\ (List.length key = KeySize ->
      fst (keyFilepath_Key path w') = Go.Returned (key, None))
  /\ ((KeySize <= List.length key)%nat ->
      fst (keyFilepath_Key path w') = Go.Returned (firstn KeySize key, None)).
Proof.
  intros Hs Hstat Hread.
  assert (Hw : fs w' !! path = Some (File 256 key) /\ fault w' = fault w).
  { revert Hs. rewrite SaveEncryptionKey_eq. cbv zeta.
    destruct (fs w !! path); [discriminate|].
    destruct (fs w !! dirname path) as [[|m]|]; try discriminate.
    destruct (fault w SysWrite); [discriminate|].
    destruct (fault w SysChmod); [discriminate|].
    intros H. inversion H. cbn [fs fault set_fs log].
    split; [apply lookup_insert_eq|reflexivity]. }
  destruct Hw as [Hf Hfault].
  assert (Hk : fst (keyFilepath_Key path w')
               = Go.Returned (firstn KeySize key ++ repeat x00 (KeySize - List.length key), None)).
  { rewrite keyFilepath_Key_eq. cbv zeta. rewrite Hf, Hfault, Hstat, Hread.
    cbn [node_mode]. change (Perm 256 =? 256) with true. cbn [fst].
    rewrite key_of_read_firstn. reflexivity. }
  split; [exact Hk|]. split.
  - intros Hl. rewrite Hk, Hl, Nat.sub_diag, firstn_all2 by lia.
    cbn [repeat]. rewrite app_nil_r. reflexivity.
  - intros Hl. rewrite Hk.
    replace (KeySize - List.length key)%nat with 0%nat by lia.
    cbn [repeat]. rewrite app_nil_r. reflexivity.
Qed.

(** X13: GetEncryptionScheme cuts the block size to 32 bits: the scheme's
    block size is always within the int32 range and congruent to the
    configured one modulo 2^32, and it is the configured one exactly when
    that fits 32 bits. *)
Theorem GetEncryptionScheme_block_size (env : Env) (c : Config) :
  GoInt.in_int32 (SchemeBlockSize (GetEncryptionScheme env c))
  /\ (SchemeBlockSize (GetEncryptionScheme env c) - BlockSize (Enc c)) mod 2 ^ 32 = 0
  /\ (SchemeBlockSize (GetEncryptionScheme env c) = BlockSize (Enc c)
      <-> GoInt.in_int32 (BlockSize (Enc c)))
  /\ SchemeCipher (GetEncryptionScheme env c) = storj_Cipher env (DataType (Enc c)).
Proof.
  cbn [GetEncryptionScheme SchemeBlockSize SchemeCipher].
  assert (Hr : GoInt.in_int32 (GoInt.int32 (BlockSize (Enc c)))).
  { unfold GoInt.in_int32, GoInt.int32, GoInt.wrap.
    pose proof (Z.mod_pos_bound (BlockSize (Enc c) + 2 ^ (32 - 1)) (2 ^ 32) ltac:(lia)).
    change (2 ^ (32 - 1)) with 2147483648 in *. change (2 ^ 32) with 4294967296 in *. lia. }
  split; [exact Hr|]. split; [|split; [|reflexivity]].
  - unfold GoInt.int32, GoInt.wrap.
    change (2 ^ (32 - 1)) with 2147483648. change (2 ^ 32) with 4294967296.
    pose proof (Z.div_mod (BlockSize (Enc c) + 2147483648) 4294967296 ltac:(lia)) as E.
    replace ((BlockSize (Enc c) + 2147483648) mod 4294967296 - 2147483648 - BlockSize (Enc c))
      with (- ((BlockSize (Enc c) + 2147483648) / 4294967296) * 4294967296) by lia.
    apply Z.mod_mul. lia.
  - split.
    + intros E. rewrite <- E. exact Hr.
    + apply int32_small.
Qed.

(** ** More on [Config.GetMetainfo] *)

(** The key that the loader returns has the key length. *)
Lemma keyFilepath_Key_length (kfp : string) (w w' : World) (key : Key)
  (err : option Uplink.Error) :
  keyFilepath_Key kfp w = (Go.Returned (key, err), w') -> List.length key = KeySize.
Proof.
  rewrite keyFilepath_Key_eq. cbv zeta. intros H.
  destruct (fs w !! kfp) as [n|].
  - destruct (fault w SysStat); [inversion H; apply zeroKey_length|].
    destruct (Perm (node_mode n) =? 256); [|inversion H; apply zeroKey_length].
    destruct (fault w SysRead); [inversion H; apply zeroKey_length|].
    destruct n; inversion H; [apply key_of_read_length|apply zeroKey_length].
  - destruct (fs w !! dirname kfp) as [[|]|]; inversion H; apply zeroKey_length.
Qed.

(** X14: GetMetainfo is all or nothing: when it returns, it returns either
    an error and no store, or both stores and no error.  The two stores are
    then built on each other and share one key, one segment store, one
    redundancy strategy and one client for the address of the
    configuration; the block size of the database is the configured one cut
    to 32 bits while the stream store has it in full, so the two agree when
    the block size fits 32 bits. *)
Theorem GetMetainfo_all_or_nothing (env : Env) (c : Config) (identity : Identity)
  (w w' : World) (r : Result3) :
  GetMetainfo env c identity w = (Go.Returned r, w') ->
  (exists e, r = fail3 e)
  \/ (exists db ss, r = (Some db, Some ss, None)
      /\ db_streams db = ss
      /\ bs_streams (db_buckets db) = ss
      /\ db_segments db = str_segments ss
      /\ db_key db = str_key ss
      /\ List.length (db_key db) = KeySize
      /\ db_rs db = seg_rs (db_segments db)
      /\ db_metainfo db = seg_metainfo (db_segments db)
      /\ mc_address (db_metainfo db) = SatelliteAddr (Client c)
      /\ db_segmentSize db = str_segmentSize ss
      /\ db_encBlockSize db = GoInt.int32 (BlockSize (Enc c))
      /\ str_encBlockSize ss = GoInt.int (BlockSize (Enc c))
      /\ (GoInt.in_int32 (BlockSize (Enc c)) -> db_encBlockSize db = str_encBlockSize ss)).
Proof.
  rewrite GetMetainfo_eq. intros H.
  destruct (tlsopts_NewOptions env identity (TLS c)) as [e1|t].
  { inversion H. left. eexists. reflexivity. }
  destruct (String.eqb (SatelliteAddr (Client c)) "").
  { inversion H. left. eexists. reflexivity. }
  cbv zeta in H.
  destruct (metainfo_dial env _ _).
  { inversion H. left. eexists. reflexivity. }
  destruct (NewFEC _ _) as [e1|fc].
  { inversion H. left. eexists. reflexivity. }
  destruct (NewRedundancyStrategy _ _ _) as [e1|rs].
  { inversion H. left. eexists. reflexivity. }
  destruct (encryption_CalcEncryptedSize env _ _) as [e1|sz].
  { inversion H. left. eexists. reflexivity. }
  destruct (_ =? 0); [discriminate|].
  destruct (negb _).
  { inversion H. left. eexists. reflexivity. }
  destruct (keyFilepath_Key_world (KeyFilepath (Enc c))
              (log (EvDial (SatelliteAddr (Client c)) (APIKey (Client c))) w))
    as [[key err] Hk].
  pose proof (keyFilepath_Key_length _ _ _ _ _ Hk) as Hlen.
  rewrite Hk in H. destruct err as [e1|].
  { inversion H. left. eexists. reflexivity. }
  unfold streams_NewStreamStore in H.
  destruct (streams_check env _ _ _).
  { inversion H. left. eexists. reflexivity. }
  inversion H. right. eexists _, _. split; [reflexivity|].
  cbn. repeat split; try reflexivity; try exact Hlen.
  intros Hb. unfold Size_Int32, Size_Int.
  rewrite (int32_small _ Hb). symmetry. apply int_small.
  unfold GoInt.in_int32 in Hb. unfold GoInt.in_int. lia.
Qed.

(** X15: GetMetainfo succeeds only on a configuration with a satellite
    address and a non-zero block size that passes the share/block-size
    check, and only with a regular key file of mode 0400 in place; the key
    of the stores is then the content of that file, and all the process did
    to the outside is one dial of the configured address followed by one
    read-only open of the key file. *)
Theorem GetMetainfo_success (env : Env) (c : Config) (identity : Identity)
  (w w' : World) (db : DB) (ss : StreamStore) :
  GetMetainfo env c identity w = (Go.Returned (Some db, Some ss, None), w') ->
  SatelliteAddr (Client c) <> ""%string
  /\ reaches_block_size_check env c identity = true
  /\ Size_Int (BlockSize (Enc c)) <> 0
  /\ GoInt.rem (GoInt.mul (Size_Int (Uplink.ErasureShareSize (RS c))) (MinThreshold (RS c)))
       (Size_Int (BlockSize (Enc c))) = 0
  /\ (exists mode data,
        fs w !! KeyFilepath (Enc c) = Some (File mode data)
        /\ Perm mode = 256
        /\ db_key db = key_of_read (firstn KeySize data))
  /\ trace w' = trace w ++ [EvDial (SatelliteAddr (Client c)) (APIKey (Client c));
                            EvOpenFile (KeyFilepath (Enc c)) O_RDONLY]
  /\ fault w' = fault w.
Proof.
  rewrite GetMetainfo_eq. unfold reaches_block_size_check, reaches_erasure_construction.
  intros H.
  destruct (tlsopts_NewOptions env identity (TLS c)) as [e1|t]; [discriminate|].
  destruct (String.eqb (SatelliteAddr (Client c)) "") eqn:Ha; [discriminate|].
  cbv zeta in H.
  destruct (metainfo_dial env _ _); [discriminate|].
  destruct (NewFEC _ _) as [e1|fc]; [discriminate|].
  destruct (NewRedundancyStrategy _ _ _) as [e1|rs]; [discriminate|].
  destruct (encryption_CalcEncryptedSize env _ _) as [e1|sz]; [discriminate|].
  destruct (_ =? 0) eqn:Hz; [discriminate|].
  destruct (GoInt.rem _ _ =? 0) eqn:Hrem; cbn [negb] in H; [|discriminate].
  rewrite keyFilepath_Key_eq in H. cbv zeta in H. cbn [fs fault log] in H.
  split; [apply String.eqb_neq; exact Ha|].
  split; [reflexivity|].
  split; [apply Z.eqb_neq; exact Hz|].
  split; [apply Z.eqb_eq; exact Hrem|].
  destruct (fs w !! KeyFilepath (Enc c)) as [n|].
  2: { destruct (fs w !! dirname (KeyFilepath (Enc c))) as [[|]|]; discriminate. }
  destruct (fault w SysStat); [discriminate|].
  destruct (Perm (node_mode n) =? 256) eqn:Hp; [|discriminate].
  destruct (fault w SysRead); [discriminate|].
  destruct n as [mode data|mode]; [|discriminate].
  unfold streams_NewStreamStore in H.
  destruct (streams_check env _ _ _); [discriminate|].
  inversion H. cbn [db_key trace fault log].
  split.
  - eexists _, _. split; [reflexivity|]. split; [apply Z.eqb_eq; exact Hp|reflexivity].
  - split; [|reflexivity]. rewrite <- app_assoc. reflexivity.
Qed.

(** X16: without a satellite address GetMetainfo touches nothing: it
    returns an error and no store, in the world it started in, with no dial
    and no file opened.  The error is the one of the TLS options if those
    fail, and otherwise "satellite address not specified", which is not of
    the class of uplink configuration errors. *)
Theorem GetMetainfo_without_address (env : Env) (c : Config) (identity : Identity)
  (w : World) :
  SatelliteAddr (Client c) = ""%string ->
  exists e,
    GetMetainfo env c identity w = (Go.Returned (fail3 e), w)
    /\ is_config_class e = false
    /\ (is_ok (tlsopts_NewOptions env identity (TLS c)) = true -> e = ErrNoSatelliteAddr).
Proof.
  intros Ha. rewrite GetMetainfo_eq, Ha.
  destruct (tlsopts_NewOptions env identity (TLS c)) as [e1|t]; cbn [String.eqb is_ok].
  - eexists. split; [reflexivity|]. split; [reflexivity|discriminate].
  - eexists. split; [reflexivity|]. split; reflexivity.
Qed.

(** X17: GetMetainfo panics exactly when every step before the
    share/block-size check succeeds and the block size is zero as an int,
    the divisor of the check; the panic is the division by zero, and the
    satellite has been dialled by then. *)
Theorem GetMetainfo_panics_iff (env : Env) (c : Config) (identity : Identity) (w : World) :
  ((exists msg, fst (GetMetainfo env c identity w) = Go.Panics msg)
   <-> reaches_block_size_check env c identity = true
       /\ Size_Int (BlockSize (Enc c)) = 0)
  /\ (forall msg, fst (GetMetainfo env c identity w) = Go.Panics msg ->
        msg = "runtime error: integer divide by zero"%string
        /\ trace (snd (GetMetainfo env c identity w))
           = trace w ++ [EvDial (SatelliteAddr (Client c)) (APIKey (Client c))]).
Proof.
  rewrite GetMetainfo_eq. unfold reaches_block_size_check, reaches_erasure_construction.
  destruct (tlsopts_NewOptions env identity (TLS c)) as [e1|t]; cbn [is_ok andb fst].
  { split; [split; [intros [m Hm]; discriminate|intros [? _]; discriminate]|discriminate]. }
  destruct (String.eqb (SatelliteAddr (Client c)) ""); cbn [negb andb fst].
  { split; [split; [intros [m Hm]; discriminate|intros [? _]; discriminate]|discriminate]. }
  cbv zeta.
  destruct (metainfo_dial env _ _); cbn [andb fst].
  { split; [split; [intros [m Hm]; discriminate|intros [? _]; discriminate]|discriminate]. }
  destruct (NewFEC _ _) as [e1|fc]; cbn [andb fst].
  { split; [split; [intros [m Hm]; discriminate|intros [? _]; discriminate]|discriminate]. }
  destruct (NewRedundancyStrategy _ _ _) as [e1|rs]; cbn [is_ok andb fst].
  { split; [split; [intros [m Hm]; discriminate|intros [? _]; discriminate]|discriminate]. }
  destruct (encryption_CalcEncryptedSize env _ _) as [e1|sz]; cbn [is_ok andb fst].
  { split; [split; [intros [m Hm]; discriminate|intros [? _]; discriminate]|discriminate]. }
  destruct (Size_Int (BlockSize (Enc c)) =? 0) eqn:Hz; cbn [fst snd].
  { apply Z.eqb_eq in Hz. split.
    - split; [intros _; split; [reflexivity|exact Hz]|intros _; eexists; reflexivity].
    - intros msg Hm. inversion Hm. split; reflexivity. }
  apply Z.eqb_neq in Hz.
  destruct (negb _); cbn [fst].
  { split; [split; [intros [m Hm]; discriminate|intros [_ ?]; contradiction]|discriminate]. }
  destruct (keyFilepath_Key_world (KeyFilepath (Enc c))
              (log (EvDial (SatelliteAddr (Client c)) (APIKey (Client c))) w))
    as [[key err] Hk].
  rewrite Hk. destruct err as [e1|]; cbn [fst].
  { split; [split; [intros [m Hm]; discriminate|intros [_ ?]; contradiction]|discriminate]. }
  destruct (streams_NewStreamStore _ _ _ _ _ _); cbn [fst].
  all: split; [split; [intros [m Hm]; discriminate|intros [_ ?]; contradiction]|discriminate].
Qed.

(** X18: what GetMetainfo does to the outside is nothing, one dial, or one
    dial followed by one read-only open of the key file, in that order.
    Nothing happens exactly when the TLS options fail or the satellite
    address is empty; the key file is opened exactly when every step before
    the share/block-size check succeeded, the block size is not zero and
    the check passed. *)
Theorem GetMetainfo_events (env : Env) (c : Config) (identity : Identity) (w : World) :
  let w' := snd (GetMetainfo env c identity w) in
  let dial := EvDial (SatelliteAddr (Client c)) (APIKey (Client c)) in
  let open := EvOpenFile (KeyFilepath (Enc c)) O_RDONLY in
  (trace w' = trace w \/ trace w' = trace w ++ [dial] \/ trace w' = trace w ++ [dial; open])
  /\ (trace w' = trace w
      <-> is_ok (tlsopts_NewOptions env identity (TLS c)) = false
          \/ SatelliteAddr (Client c) = ""%string)
  /\ (trace w' = trace w ++ [dial; open]
      <-> reaches_block_size_check env c identity = true
          /\ Size_Int (BlockSize (Enc c)) <> 0
          /\ GoInt.rem (GoInt.mul (Size_Int (Uplink.ErasureShareSize (RS c)))
                          (MinThreshold (RS c)))
               (Size_Int (BlockSize (Enc c))) = 0).
Proof.
  cbv zeta.
  assert (N1 : forall (l : list Event) a, l ++ [a] <> l).
  { intros l a E. apply (f_equal (@List.length Event)) in E.
    rewrite length_app in E. cbn in E. lia. }
  assert (N2 : forall (l : list Event) a b, l ++ [a; b] <> l).
  { intros l a b E. apply (f_equal (@List.length Event)) in E.
    rewrite length_app in E. cbn in E. lia. }
  assert (N3 : forall (l : list Event) a b, l ++ [a] <> l ++ [a; b]).
  { intros l a b E. apply (f_equal (@List.length Event)) in E.
    rewrite !length_app in E. cbn in E. lia. }
  assert (N4 : forall (l : list Event) a b, l = l ++ [a; b] -> False).
  { intros l a b E. symmetry in E. exact (N2 _ _ _ E). }
  rewrite GetMetainfo_eq. unfold reaches_block_size_check, reaches_erasure_construction.
  destruct (tlsopts_NewOptions env identity (TLS c)) as [e1|t]; cbn [is_ok andb fst snd].
  { split; [left; reflexivity|]. split.
    - split; [intros _; left; reflexivity|reflexivity].
    - split; [intros E; destruct (N4 _ _ _ E)|intros [? _]; discriminate]. }
  destruct (String.eqb (SatelliteAddr (Client c)) "") eqn:Ha; cbn [negb andb fst snd].
  { apply String.eqb_eq in Ha. split; [left; reflexivity|]. split.
    - split; [intros _; right; exact Ha|reflexivity].
    - split; [intros E; destruct (N4 _ _ _ E)|intros [? _]; discriminate]. }
  apply String.eqb_neq in Ha. cbv zeta.
  assert (Hnot : trace w ++ [EvDial (SatelliteAddr (Client c)) (APIKey (Client c))] = trace w
                 <-> true = false \/ SatelliteAddr (Client c) = ""%string).
  { split; [intros E; destruct (N1 _ _ E)|intros [?|?]; [discriminate|contradiction]]. }
  assert (Hnot2 : trace w ++ [EvDial (SatelliteAddr (Client c)) (APIKey (Client c));
                              EvOpenFile (KeyFilepath (Enc c)) O_RDONLY] = trace w
                  <-> true = false \/ SatelliteAddr (Client c) = ""%string).
  { split; [intros E; destruct (N2 _ _ _ E)|intros [?|?]; [discriminate|contradiction]]. }
  destruct (metainfo_dial env _ _); cbn [andb fst snd trace log].
  { split; [right; left; reflexivity|]. split; [exact Hnot|].
    split; [intros E; destruct (N3 _ _ _ E)|intros [? _]; discriminate]. }
  destruct (NewFEC _ _) as [e1|fc]; cbn [andb fst snd trace log].
  { split; [right; left; reflexivity|]. split; [exact Hnot|].
    split; [intros E; destruct (N3 _ _ _ E)|intros [? _]; discriminate]. }
  destruct (NewRedundancyStrategy _ _ _) as [e1|rs]; cbn [is_ok andb fst snd trace log].
  { split; [right; left; reflexivity|]. split; [exact Hnot|].
    split; [intros E; destruct (N3 _ _ _ E)|intros [? _]; discriminate]. }
  destruct (encryption_CalcEncryptedSize env _ _) as [e1|sz];
    cbn [is_ok andb fst snd trace log].
  { split; [right; left; reflexivity|]. split; [exact Hnot|].
    split; [intros E; destruct (N3 _ _ _ E)|intros [? _]; discriminate]. }
  destruct (Size_Int (BlockSize (Enc c)) =? 0) eqn:Hz; cbn [fst snd trace log].
  { apply Z.eqb_eq in Hz. split; [right; left; reflexivity|]. split; [exact Hnot|].
    split; [intros E; destruct (N3 _ _ _ E)|intros [_ [? _]]; contradiction]. }
  apply Z.eqb_neq in Hz.
  destruct (GoInt.rem _ _ =? 0) eqn:Hrem; cbn [negb fst snd trace log].
  2: { apply Z.eqb_neq in Hrem. split; [right; left; reflexivity|]. split; [exact Hnot|].
       split; [intros E; destruct (N3 _ _ _ E)|intros [_ [_ ?]]; contradiction]. }
  apply Z.eqb_eq in Hrem.
  destruct (keyFilepath_Key_world (KeyFilepath (Enc c))
              (log (EvDial (SatelliteAddr (Client c)) (APIKey (Client c))) w))
    as [[key err] Hk].
  rewrite Hk.
  assert (Ht : trace (log (EvOpenFile (KeyFilepath (Enc c)) O_RDONLY)
                        (log (EvDial (SatelliteAddr (Client c)) (APIKey (Client c))) w))
               = trace w ++ [EvDial (SatelliteAddr (Client c)) (APIKey (Client c));
                             EvOpenFile (KeyFilepath (Enc c)) O_RDONLY]).
  { cbn [trace log]. rewrite <- app_assoc. reflexivity. }
  destruct err as [e1|]; cbn [fst snd].
  { rewrite Ht. split; [right; right; reflexivity|]. split; [exact Hnot2|].
    split; [intros _; repeat split; assumption|reflexivity]. }
  destruct (streams_NewStreamStore _ _ _ _ _ _); cbn [fst snd]; rewrite Ht.
  all: split; [right; right; reflexivity|]; split; [exact Hnot2|];
    split; [intros _; repeat split; assumption|reflexivity].
Qed.

(** The client built from the development configuration and a key file. *)
Lemma saved_key_is_loaded_witness :
  fst (keyFilepath_Key "/cfg/.enc.key"
         (snd (SaveEncryptionKey passphrase "/cfg/.enc.key" world_setup)))
  = Go.Returned (firstn KeySize passphrase
                 ++ repeat x00 (KeySize - List.length passphrase), None).
Proof.
  apply (proj1 (saved_key_is_loaded passphrase "/cfg/.enc.key" world_setup
                  (snd (SaveEncryptionKey passphrase "/cfg/.enc.key" world_setup))
                  ltac:(vm_compute; reflexivity) eq_refl eq_refl)).
Defined.

Lemma GetMetainfo_all_or_nothing_witness :
  exists db ss,
    fst (GetMetainfo env_ok cfg_dev "id" world_keyed) = Go.Returned (Some db, Some ss, None)
    /\ db_streams db = ss
    /\ db_key db = str_key ss.
Proof.
  destruct (GetMetainfo_succeeds_example) as (db & ss & w' & H & _).
  destruct (GetMetainfo_all_or_nothing env_ok cfg_dev "id" world_keyed w' _ H)
    as [[e He]|(db' & ss' & Hr & Hs & _ & _ & Hk & _)].
  - discriminate He.
  - exists db', ss'. split; [rewrite H, Hr; reflexivity|]. split; assumption.
Defined.

Lemma GetMetainfo_success_witness :
  exists db ss w',
    GetMetainfo env_ok cfg_dev "id" world_keyed = (Go.Returned (Some db, Some ss, None), w')
    /\ trace w' = trace world_keyed ++ [EvDial "127.0.0.1:10000" "apikey";
                                        EvOpenFile "/cfg/.enc.key" O_RDONLY].
Proof.
  destruct (GetMetainfo_succeeds_example) as (db & ss & w' & H & _).
  exists db, ss, w'. split; [exact H|].
  apply (GetMetainfo_success env_ok cfg_dev "id" world_keyed w' db ss H).
Defined.

Lemma GetMetainfo_without_address_witness :
  exists e,
    GetMetainfo env_ok MoreExamples.cfg_no_addr "id" world_keyed
    = (Go.Returned (fail3 e), world_keyed)
    /\ is_config_class e = false
    /\ (is_ok (tlsopts_NewOptions env_ok "id" (TLS MoreExamples.cfg_no_addr)) = true ->
        e = ErrNoSatelliteAddr).
Proof.
  apply (GetMetainfo_without_address env_ok MoreExamples.cfg_no_addr "id" world_keyed).
  reflexivity.
Defined.

(** ** More on the setup command *)

Lemma bytes_Equal_eq (a b : list byte) : bytes_Equal a b = true <-> a = b.
Proof.
  revert b. induction a as [|x a IH]; intros [|y b]; cbn [bytes_Equal].
  - split; reflexivity.
  - split; discriminate.
  - split; discriminate.
  - rewrite andb_true_iff, IH. split.
    + intros [Hx ->]. apply Byte.byte_dec_bl in Hx. subst. reflexivity.
    + intros E. inversion E. split; [apply Byte.byte_dec_lb|]; reflexivity.
Qed.

(** X19: SaveEncryptionKey always returns and never panics; it opens the
    path once, with O_CREATE|O_EXCL|O_WRONLY, and that is all it adds to
    the trace; no other path of the file tree is touched; and when it
    reports a missing directory or an existing file, the file tree is as it
    was. *)
Theorem SaveEncryptionKey_frame (key : list byte) (path : string) (w : World) :
  exists r,
    fst (SaveEncryptionKey key path w) = Go.Returned r
    /\ trace (snd (SaveEncryptionKey key path w)) = trace w ++ [EvOpenFile path save_flags]
    /\ fault (snd (SaveEncryptionKey key path w)) = fault w
    /\ (forall p, p <> path -> fs (snd (SaveEncryptionKey key path w)) !! p = fs w !! p)
    /\ (r = Some ErrDirMissing \/ r = Some ErrFileKeyExists ->
        fs (snd (SaveEncryptionKey key path w)) = fs w).
Proof.
  rewrite SaveEncryptionKey_eq. cbv zeta.
  destruct (fs w !! path).
  { eexists. repeat split. }
  destruct (fs w !! dirname path) as [[|m]|].
  1, 3: eexists; repeat split.
  destruct (fault w SysWrite).
  { eexists. cbn [fst snd trace fault fs set_fs log]. repeat split.
    - intros p Hp. apply lookup_insert_ne. congruence.
    - intros [?|?]; discriminate. }
  destruct (fault w SysChmod).
  { eexists. cbn [fst snd trace fault fs set_fs log]. repeat split.
    - intros p Hp. apply lookup_insert_ne. congruence.
    - intros [?|?]; discriminate. }
  eexists. cbn [fst snd trace fault fs set_fs log]. repeat split.
  - intros p Hp. apply lookup_insert_ne. congruence.
  - destruct (fault w SysClose); intros [?|?]; discriminate.
Qed.

(** X20: SaveEncryptionKey cannot be retried.  Once its open has created
    the file (no entry at the path, in an existing directory), a regular
    file stays at the path whatever failed afterwards; a second call for
    the same path, with any key, returns "file key already exists" and
    leaves the file tree as the first call left it. *)
Theorem SaveEncryptionKey_second_call (key key2 : list byte) (path : string) (w : World)
  (m : Z) :
  fs w !! path = None ->
  fs w !! dirname path = Some (Dir m) ->
  let w' := snd (SaveEncryptionKey key path w) in
  (exists mode data, fs w' !! path = Some (File mode data))
  /\ fst (SaveEncryptionKey key2 path w') = Go.Returned (Some ErrFileKeyExists)
  /\ fs (snd (SaveEncryptionKey key2 path w')) = fs w'.
Proof.
  intros Hn Hd. cbv zeta.
  assert (H : exists mode data,
            fs (snd (SaveEncryptionKey key path w)) !! path = Some (File mode data)).
  { rewrite SaveEncryptionKey_eq. cbv zeta. rewrite Hn, Hd.
    destruct (fault w SysWrite).
    { cbn [snd fs set_fs]. rewrite lookup_insert_eq. eexists _, _. reflexivity. }
    destruct (fault w SysChmod).
    { cbn [snd fs set_fs]. rewrite lookup_insert_eq. eexists _, _. reflexivity. }
    cbn [snd fs set_fs]. rewrite lookup_insert_eq. eexists _, _. reflexivity. }
  split; [exact H|].
  destruct H as (mode & data & Hf).
  rewrite (SaveEncryptionKey_eq key2). cbv zeta. rewrite Hf. split; reflexivity.
Qed.

(** X21: an error of SaveEncryptionKey does not mean that no key was
    written.  When the write succeeds and the change of mode fails, that
    error is returned, whether or not the close fails too, and the key is
    left in the file with mode 0600; when only the close fails, its error
    is returned although the file holds the key with mode 0400; and an
    error of the write is returned in the place of any error of the
    close. *)
Theorem SaveEncryptionKey_error_leaves_file (key : list byte) (path : string) (w : World)
  (m : Z) (e : Errno) :
  fs w !! path = None ->
  fs w !! dirname path = Some (Dir m) ->
  (fault w SysWrite = Some e ->
   fst (SaveEncryptionKey key path w) = Go.Returned (Some (ErrOs e)))
  /\ (fault w SysWrite = None -> fault w SysChmod = Some e ->
      fst (SaveEncryptionKey key path w) = Go.Returned (Some (ErrOs e))
      /\ fs (snd (SaveEncryptionKey key path w)) !! path = Some (File 384 key))
  /\ (fault w SysWrite = None -> fault w SysChmod = None -> fault w SysClose = Some e ->
      fst (SaveEncryptionKey key path w) = Go.Returned (Some (ErrOs e))
      /\ fs (snd (SaveEncryptionKey key path w)) !! path = Some (File 256 key)).
Proof.
  intros Hn Hd. rewrite SaveEncryptionKey_eq. cbv zeta. rewrite Hn, Hd.
  split; [|split].
  - intros ->. reflexivity.
  - intros -> ->. cbn [fst snd fs set_fs]. split; [reflexivity|apply lookup_insert_eq].
  - intros -> -> ->. cbn [fst snd fs set_fs option_map].
    split; [reflexivity|apply lookup_insert_eq].
Qed.

(** X22: the passphrase step of the setup command reports a mismatch
    exactly when the two passphrases differ, and then does nothing at all:
    no line printed, no file opened; and with an empty passphrase given
    twice it opens no file and leaves the file tree alone, printing the
    warning at most. *)
Theorem cmdSetup_passphrase_mismatch (encKey repeatedEncKey : list byte) (path : string)
  (w : World) :
  (fst (cmdSetup_passphrase encKey repeatedEncKey path w)
   = Go.Returned (Some ErrPassphraseMismatch)
   <-> encKey <> repeatedEncKey)
  /\ (encKey <> repeatedEncKey ->
      snd (cmdSetup_passphrase encKey repeatedEncKey path w) = w)
  /\ (encKey = [] -> repeatedEncKey = [] ->
      fs (snd (cmdSetup_passphrase encKey repeatedEncKey path w)) = fs w
      /\ (trace (snd (cmdSetup_passphrase encKey repeatedEncKey path w)) = trace w
          \/ trace (snd (cmdSetup_passphrase encKey repeatedEncKey path w))
             = trace w ++ [EvPrint "Warning: Encryption passphrase is empty!"])).
Proof.
  rewrite cmdSetup_passphrase_eq.
  destruct (bytes_Equal encKey repeatedEncKey) eqn:Hb; cbn [negb].
  - apply bytes_Equal_eq in Hb. subst repeatedEncKey.
    split; [|split].
    + split; [|intros H; contradiction H; reflexivity].
      destruct (Nat.eqb (List.length encKey) 0).
      * destruct (fault w SysPrint); discriminate.
      * rewrite SaveEncryptionKey_eq. cbv zeta.
        destruct (fs w !! path); [discriminate|].
        destruct (fs w !! dirname path) as [[|m]|]; try discriminate.
        destruct (fault w SysWrite); [discriminate|].
        destruct (fault w SysChmod); [discriminate|].
        destruct (fault w SysClose); discriminate.
    + intros H. contradiction H. reflexivity.
    + intros -> _. cbn [List.length Nat.eqb].
      destruct (fault w SysPrint); cbn [snd fs trace log].
      * split; [reflexivity|left; reflexivity].
      * split; [reflexivity|right; reflexivity].
  - assert (Hne : encKey <> repeatedEncKey).
    { intros E. apply bytes_Equal_eq in E. congruence. }
    split; [|split].
    + split; [intros _; exact Hne|reflexivity].
    + reflexivity.
    + intros -> ->. contradiction Hne. reflexivity.
Qed.

(** The key file on a disk where the mode cannot be changed. *)
Lemma SaveEncryptionKey_second_call_witness :
  fst (SaveEncryptionKey [x01] "/cfg/.enc.key"
         (snd (SaveEncryptionKey passphrase "/cfg/.enc.key" MoreExamples.world_full_disk)))
  = Go.Returned (Some ErrFileKeyExists).
Proof.
  apply (SaveEncryptionKey_second_call passphrase [x01] "/cfg/.enc.key"
           MoreExamples.world_full_disk 448).
  - reflexivity.
  - reflexivity.
Defined.

Lemma SaveEncryptionKey_error_leaves_file_witness :
  fst (SaveEncryptionKey passphrase "/cfg/.enc.key" MoreExamples.world_bad_chmod)
  = Go.Returned (Some (ErrOs EACCES))
  /\ fs (snd (SaveEncryptionKey passphrase "/cfg/.enc.key" MoreExamples.world_bad_chmod))
       !! "/cfg/.enc.key"%string
     = Some (File 384 passphrase).
Proof.
  apply (proj1 (proj2 (SaveEncryptionKey_error_leaves_file passphrase "/cfg/.enc.key"
                         MoreExamples.world_bad_chmod 448 EACCES eq_refl eq_refl))).
  - reflexivity.
  - reflexivity.
Defined.

Lemma cmdSetup_passphrase_mismatch_witness :
  snd (cmdSetup_passphrase passphrase [x01] "/cfg/.enc.key" world_setup) = world_setup.
Proof.
  apply (proj1 (proj2 (cmdSetup_passphrase_mismatch passphrase [x01] "/cfg/.enc.key"
                         world_setup))).
  discriminate.
Defined.

(** ** The field selectors of the library *)

(** X23: the selectors of ListObjectsField are single bits, one per line of
    the constant block after the first: None is zero, the five single-field
    selectors are the distinct powers of two 2^1 .. 2^5, bit 0 being used
    by none of them, and All is the further bit 2^6: it shares no bit with
    any single-field selector and is not their union. *)
Theorem ListObjectsField_bits :
  LibUplinkFields.ListObjectsMetaNone = 0
  /\ LibUplinkFields.single_fields = map (fun i => 2 ^ i) [1; 2; 3; 4; 5]
  /\ LibUplinkFields.ListObjectsMetaAll = 2 ^ 6
  /\ (forall f, In f LibUplinkFields.single_fields ->
        Z.land LibUplinkFields.ListObjectsMetaAll f = 0 /\ Z.testbit f 0 = false)
  /\ (forall f g, In f LibUplinkFields.single_fields ->
        In g LibUplinkFields.single_fields -> f <> g -> Z.land f g = 0)
  /\ fold_right Z.lor 0 LibUplinkFields.single_fields <> LibUplinkFields.ListObjectsMetaAll.
Proof.
  split; [reflexivity|]. split; [reflexivity|]. split; [reflexivity|]. split; [|split].
  - intros f Hf. cbn in Hf. intuition (subst; split; reflexivity).
  - intros f g Hf Hg Hne. cbn in Hf, Hg.
    intuition (subst; try reflexivity; contradiction Hne; reflexivity).
  - vm_compute. discriminate.
Qed.
